(** * terminator: run a command on a pseudo-terminal and relay its streams

    A shallow embedding of [terminator.c] and [my_assert.h].

    The program talks to the operating system all the time.  Every system
    call is modelled by the value it returns, supplied by an environment
    record, and by an [event] appended to a trace; the C code in between is
    translated statement by statement.  One iteration of the [while] loop of
    [redirection_thread_fn] is one step of a pump; the two pump threads
    interleave at that granularity, since an iteration touches the only
    shared variable, [all_done], exactly once (in the loop condition). *)

From Stdlib Require Import ZArith List Bool String Ascii Lia.
From Stdlib Require Import Strings.Byte.
Import ListNotations.
Open Scope Z_scope.

(* ================================================================== *)
(** ** Constants and macros of the C library *)

(** The system headers are not part of the repository: their constants and
    macros are parameters of the development. *)
Class Platform := {
  BUFSIZ : Z;              (* <stdio.h> *)
  EXIT_FAILURE : Z;        (* <stdlib.h> *)
  POLLIN : Z;              (* <poll.h> *)
  POLLOUT : Z;
  POLLHUP : Z;
  STDIN_FILENO : Z;        (* <unistd.h> *)
  STDOUT_FILENO : Z;
  WIFEXITED : Z -> Z;      (* <sys/wait.h> *)
  WEXITSTATUS : Z -> Z
}.

(** The values of Linux with glibc, used to run the model on examples. *)
Definition linux_glibc : Platform := {|
  BUFSIZ := 8192;
  EXIT_FAILURE := 1;
  POLLIN := 1;
  POLLOUT := 4;
  POLLHUP := 16;
  STDIN_FILENO := 0;
  STDOUT_FILENO := 1;
  WIFEXITED := fun status => if Z.land status 127 =? 0 then 1 else 0;
  WEXITSTATUS := fun status => Z.shiftr (Z.land status 65280) 8
|}.

(* ================================================================== *)
(** ** C integers *)

(** [size_t] is an unsigned 64-bit integer. *)
Definition SIZE_MAX : Z := 2 ^ 64 - 1.

(** Conversion of an integer value to [size_t]. *)
Definition to_size_t (x : Z) : Z := x mod 2 ^ 64.

(** A C scalar used as a condition. *)
Definition c_true (x : Z) : bool := negb (x =? 0).

(** The C operator [!]. *)
Definition c_not (x : Z) : Z := if x =? 0 then 1 else 0.

(** [count] bytes of memory starting at a pointer into a [char] array: the
    model stops at the end of the array. *)
Fixpoint takeZ {A} (n : Z) (l : list A) : list A :=
  match l with
  | [] => []
  | x :: t => if n <=? 0 then [] else x :: takeZ (n - 1) t
  end.

(** Pointer arithmetic [buffer + n]. *)
Fixpoint dropZ {A} (n : Z) (l : list A) : list A :=
  match l with
  | [] => []
  | _ :: t => if n <=? 0 then l else dropZ (n - 1) t
  end.

(** A system call storing [data] at the start of the array. *)
Definition overwrite {A} (data l : list A) : list A :=
  (data ++ dropZ (Z.of_nat (List.length data)) l)%list.

(* ================================================================== *)
(** ** Traces and the monad of the program *)

Inductive event : Type :=
| EvStderr (text : string)                      (* fprintf(stderr, ...) *)
| EvPerror                                      (* perror(NULL) *)
| EvExit (status : Z)                           (* exit(status) *)
| EvSys (name : string) (ret : Z)               (* a system call of main *)
| EvPoll (fd0 fd1 ret : Z)
| EvRead (fd count ret : Z) (data : list byte)
| EvWrite (fd : Z) (data : list byte) (count ret : Z)
| EvFsync (fd ret : Z).

Inductive outcome (A : Type) : Type :=
| Ok (a : A)            (* the code went on, with this value *)
| Exited (status : Z)   (* exit() was called: the whole process is gone *)
| Replaced              (* execvp() succeeded *)
| Blocked.              (* waiting for something the environment never gives *)

Arguments Ok {A} a.
Arguments Exited {A} status.
Arguments Replaced {A}.
Arguments Blocked {A}.

Definition M (A : Type) : Type := (outcome A * list event)%type.

Definition ret {A} (a : A) : M A := (Ok a, []).

Definition bind {A B} (m : M A) (f : A -> M B) : M B :=
  match m with
  | (Ok a, t) => let (r, t') := f a in (r, (t ++ t')%list)
  | (Exited st, t) => (Exited st, t)
  | (Replaced, t) => (Replaced, t)
  | (Blocked, t) => (Blocked, t)
  end.

Notation "x <- m ;; k" := (bind m (fun x => k))
  (at level 61, m at next level, right associativity).
Notation "m ;; k" := (bind m (fun _ => k))
  (at level 61, right associativity).

Definition emit (e : event) : M unit := (Ok tt, [e]).

Definition c_exit {A} (status : Z) : M A := (Exited status, [EvExit status]).

Definition outcome_map {A B} (f : A -> B) (o : outcome A) : outcome B :=
  match o with
  | Ok a => Ok (f a)
  | Exited st => Exited st
  | Replaced => Replaced
  | Blocked => Blocked
  end.

(* ================================================================== *)
(** ** my_assert.h *)

Section Program.

Context {P : Platform}.

(** The number of bytes to read in one go. *)
Definition BUFFER_SIZE : Z := BUFSIZ.

Definition ASSERT_PROGRAM_NAME : string := "terminator".

Definition newline : string := String "010" EmptyString.

(** [ASSERT_DEBUG] is not defined: only the program name is printed. *)
Definition ASSERT_PRINT_PROGRAM_NAME : M unit :=
  emit (EvStderr (ASSERT_PROGRAM_NAME ++ ": ")%string).

Definition ASSERT (x : bool) : M unit :=
  if x then ret tt
  else ASSERT_PRINT_PROGRAM_NAME ;; emit EvPerror ;; c_exit EXIT_FAILURE.

Definition ASSERT_WITH_MESSAGE (x : bool) (msg : string) : M unit :=
  if x then ret tt
  else ASSERT_PRINT_PROGRAM_NAME ;; emit (EvStderr (msg ++ newline)%string) ;;
       c_exit EXIT_FAILURE.

(** The macros compare the value of the expression they are given with 0,
    in the type of that expression. *)
Definition ASSERT_NONNEG (x : Z) : M unit := ASSERT (0 <=? x).

Definition ASSERT_ZERO (x : Z) : M unit := ASSERT (x =? 0).

(* ================================================================== *)
(** ** The redirection pump: state and system calls *)

Record redirection_info : Type := {
  id : Z;
  in_fd : Z;
  out_fd : Z;
  send_eot : Z;
  end_all : Z
}.

(** The local variables of [redirection_thread_fn]. *)
Record pump_state : Type := {
  keep_going : Z;
  found_eof : Z;
  poll_fd0 : Z;               (* poll_fds[0].fd *)
  poll_fd1 : Z;               (* poll_fds[1].fd *)
  buffer : list byte;
  buffer_length : Z;          (* size_t *)
  buffer_offset : Z           (* size_t *)
}.

(** What the operating system answers during one iteration of the loop.
    An iteration polls once, reads at most once and writes at most once. *)
Record cycle_env : Type := {
  poll_ret : Z;
  revents0 : Z;               (* poll_fds[0].revents after poll *)
  revents1 : Z;               (* poll_fds[1].revents after poll *)
  read_ret : Z;
  read_data : list byte;      (* the bytes read stored into the buffer *)
  write_ret : Z;
  fsync_ret : Z;
  isastream_ret : Z;
  isatty_ret : Z
}.

Definition sys_poll (s : pump_state) (e : cycle_env) : M Z :=
  emit (EvPoll (poll_fd0 s) (poll_fd1 s) (poll_ret e)) ;; ret (poll_ret e).

Definition sys_read (fd count : Z) (e : cycle_env) : M Z :=
  emit (EvRead fd count (read_ret e) (read_data e)) ;; ret (read_ret e).

Definition sys_write (fd : Z) (data : list byte) (count : Z) (e : cycle_env)
  : M Z :=
  emit (EvWrite fd data count (write_ret e)) ;; ret (write_ret e).

Definition sys_fsync (fd : Z) (e : cycle_env) : M Z :=
  emit (EvFsync fd (fsync_ret e)) ;; ret (fsync_ret e).

(** The initialisations at the top of [redirection_thread_fn].  The buffer
    is an uninitialised array on the stack: [stack] is what it holds. *)
Definition thread_start (info : redirection_info) (stack : list byte)
  : pump_state :=
  {| keep_going := 1;
     found_eof := 0;
     poll_fd0 := in_fd info;
     poll_fd1 := out_fd info;
     buffer := stack;
     buffer_length := 0;
     buffer_offset := 0 |}.

(* ================================================================== *)
(** ** The body of the loop, block by block *)

(** [if (poll_fds[0].revents & POLLHUP && !(poll_fds[0].revents & POLLIN))] *)
Definition source_hangup_seen (e : cycle_env) : bool :=
  c_true (Z.land (revents0 e) POLLHUP)
  && negb (c_true (Z.land (revents0 e) POLLIN)).

Definition on_source_hangup (s : pump_state) : pump_state :=
  {| keep_going := keep_going s;
     found_eof := 1;
     poll_fd0 := -1;
     poll_fd1 := poll_fd1 s;
     buffer := buffer s;
     buffer_length := buffer_length s;
     buffer_offset := buffer_offset s |}.

(** [if (poll_fds[1].revents & POLLHUP)] *)
Definition dest_hangup_seen (e : cycle_env) : bool :=
  c_true (Z.land (revents1 e) POLLHUP).

Definition on_dest_hangup (s : pump_state) : pump_state :=
  {| keep_going := 0;
     found_eof := found_eof s;
     poll_fd0 := poll_fd0 s;
     poll_fd1 := -1;
     buffer := buffer s;
     buffer_length := 0;
     buffer_offset := 0 |}.

(** [if (keep_going && !found_eof && poll_fds[0].revents & POLLIN
         && buffer_length == 0)] *)
Definition fill_enabled (e : cycle_env) (s : pump_state) : bool :=
  c_true (keep_going s)
  && negb (c_true (found_eof s))
  && c_true (Z.land (revents0 e) POLLIN)
  && (buffer_length s =? 0).

(** [n_read] is a [size_t]: the value of the assignment that
    [ASSERT_NONNEG] tests is the converted one. *)
Definition fill (e : cycle_env) (s : pump_state) : M pump_state :=
  r <- sys_read (poll_fd0 s) (to_size_t BUFFER_SIZE) e ;;
  let n_read := to_size_t r in
  ASSERT_NONNEG n_read ;;
  let buffer' := if 0 <=? r then overwrite (read_data e) (buffer s)
                 else buffer s in
  if n_read =? 0 then
    ret {| keep_going := keep_going s;
           found_eof := 1;
           poll_fd0 := -1;
           poll_fd1 := poll_fd1 s;
           buffer := buffer';
           buffer_length := n_read;
           buffer_offset := 0 |}
  else
    ret {| keep_going := keep_going s;
           found_eof := found_eof s;
           poll_fd0 := poll_fd0 s;
           poll_fd1 := poll_fd1 s;
           buffer := buffer';
           buffer_length := n_read;
           buffer_offset := 0 |}.

(** The bytes at [buffer + buffer_offset], [buffer_length] of them. *)
Definition pending (s : pump_state) : list byte :=
  takeZ (buffer_length s) (dropZ (buffer_offset s) (buffer s)).

(** [if (buffer_length > 0)]: [n_written] is a [size_t] as well. *)
Definition drain (e : cycle_env) (s : pump_state) : M pump_state :=
  r <- sys_write (poll_fd1 s) (pending s) (buffer_length s) e ;;
  let n_written := to_size_t r in
  ASSERT_NONNEG n_written ;;
  f <- sys_fsync (poll_fd1 s) e ;;
  ASSERT_ZERO f ;;
  ret {| keep_going := keep_going s;
         found_eof := found_eof s;
         poll_fd0 := poll_fd0 s;
         poll_fd1 := poll_fd1 s;
         buffer := buffer s;
         buffer_length := to_size_t (buffer_length s - n_written);
         buffer_offset := to_size_t (buffer_offset s + n_written) |}.

Definition eot_char : byte := x04.

(** [info->send_eot && (isastream(poll_fds[1].fd) || isatty(poll_fds[1].fd))] *)
Definition wants_eot (info : redirection_info) (e : cycle_env) : bool :=
  c_true (send_eot info)
  && (c_true (isastream_ret e) || c_true (isatty_ret e)).

(** [else if (found_eof)]: here [write] is tested in its own type,
    [ssize_t]. *)
Definition finish (info : redirection_info) (e : cycle_env) (s : pump_state)
  : M pump_state :=
  (if wants_eot info e then
     r <- sys_write (poll_fd1 s) [eot_char] 1 e ;;
     ASSERT_NONNEG r ;;
     f <- sys_fsync (poll_fd1 s) e ;;
     ASSERT_ZERO f
   else
     r <- sys_write (poll_fd1 s) [] 0 e ;;
     ASSERT_NONNEG r ;;
     f <- sys_fsync (poll_fd1 s) e ;;
     ASSERT_ZERO f) ;;
  ret {| keep_going := 0;
         found_eof := found_eof s;
         poll_fd0 := poll_fd0 s;
         poll_fd1 := poll_fd1 s;
         buffer := buffer s;
         buffer_length := buffer_length s;
         buffer_offset := buffer_offset s |}.

(** [if (poll_fds[1].revents & POLLOUT)] *)
Definition dest_writable (e : cycle_env) : bool :=
  c_true (Z.land (revents1 e) POLLOUT).

Definition on_writable (info : redirection_info) (e : cycle_env)
  (s : pump_state) : M pump_state :=
  if 0 <? buffer_length s then drain e s
  else if c_true (found_eof s) then finish info e s
  else ret s.

(** The two blocks that look at hang-ups, in the order of the source. *)
Definition hangups (e : cycle_env) (s : pump_state) : pump_state :=
  let s := if source_hangup_seen e then on_source_hangup s else s in
  if dest_hangup_seen e then on_dest_hangup s else s.

(** The two blocks that move bytes: the fill and the write. *)
Definition transfer (info : redirection_info) (e : cycle_env)
  (s : pump_state) : M pump_state :=
  s <- (if fill_enabled e s then fill e s else ret s) ;;
  if dest_writable e then on_writable info e s else ret s.

(** One pass through the body of the [while] loop. *)
Definition loop_body (info : redirection_info) (e : cycle_env)
  (s : pump_state) : M pump_state :=
  r <- sys_poll s e ;;
  ASSERT_NONNEG r ;;
  transfer info e (hangups e s).

(* ================================================================== *)
(** ** The loop, the thread and the shared flag *)

(** A pump thread is inside its loop or has returned. *)
Inductive thread : Type :=
| Running (s : pump_state)
| Returned.

(** [while ((keep_going &= !all_done) || buffer_length)]: the condition
    reads the shared flag, updates [keep_going] and tells whether the body
    runs once more. *)
Definition loop_head (all_done : Z) (s : pump_state) : bool * pump_state :=
  let keep_going' := Z.land (keep_going s) (c_not all_done) in
  (c_true keep_going' || c_true (buffer_length s),
   {| keep_going := keep_going';
      found_eof := found_eof s;
      poll_fd0 := poll_fd0 s;
      poll_fd1 := poll_fd1 s;
      buffer := buffer s;
      buffer_length := buffer_length s;
      buffer_offset := buffer_offset s |}).

(** [if (info->end_all) all_done = 1;] after the loop. *)
Definition loop_exit (info : redirection_info) (all_done : Z) : Z :=
  if c_true (end_all info) then 1 else all_done.

(** One evaluation of the loop condition, followed by the body or by the
    code after the loop.  The result is the thread and the value of
    [all_done] it leaves. *)
Definition pump_step (info : redirection_info) (all_done : Z) (e : cycle_env)
  (s : pump_state) : M (thread * Z) :=
  let (again, s1) := loop_head all_done s in
  if again then
    s2 <- loop_body info e s1 ;;
    ret (Running s2, all_done)
  else
    ret (Returned, loop_exit info all_done).

(** A pump on its own: each entry of the script is the value of [all_done]
    the pump sees at the loop condition and the answers of the system
    during the iteration that follows. *)
Fixpoint pump_run (info : redirection_info) (script : list (Z * cycle_env))
  (th : thread) : M thread :=
  match script, th with
  | [], _ => ret th
  | _, Returned => ret Returned
  | (flag, e) :: script', Running s =>
      r <- pump_step info flag e s ;;
      pump_run info script' (fst r)
  end.

Definition redirection_thread_fn (info : redirection_info)
  (stack : list byte) (script : list (Z * cycle_env)) : M thread :=
  pump_run info script (Running (thread_start info stack)).

(** The process of the parent once both threads are created:
    [static volatile int all_done] and the two threads. *)
Record process : Type := {
  all_done : Z;
  reader_thread : thread;
  writer_thread : thread
}.

Inductive thread_id : Type := Reader | Writer.

(** [struct redirection_info reader_info = { 0, STDIN_FILENO, fdm, 1, 0 };] *)
Definition reader_info (fdm : Z) : redirection_info :=
  {| id := 0; in_fd := STDIN_FILENO; out_fd := fdm;
     send_eot := 1; end_all := 0 |}.

(** [struct redirection_info writer_info = { 1, fdm, STDOUT_FILENO, 0, 1 };] *)
Definition writer_info (fdm : Z) : redirection_info :=
  {| id := 1; in_fd := fdm; out_fd := STDOUT_FILENO;
     send_eot := 0; end_all := 1 |}.

Definition info_of (fdm : Z) (t : thread_id) : redirection_info :=
  match t with
  | Reader => reader_info fdm
  | Writer => writer_info fdm
  end.

Definition thread_of (p : process) (t : thread_id) : thread :=
  match t with
  | Reader => reader_thread p
  | Writer => writer_thread p
  end.

Definition set_thread (p : process) (t : thread_id) (th : thread) (flag : Z)
  : process :=
  match t with
  | Reader => {| all_done := flag; reader_thread := th;
                 writer_thread := writer_thread p |}
  | Writer => {| all_done := flag; reader_thread := reader_thread p;
                 writer_thread := th |}
  end.

(** [static volatile int all_done = 0;] and two threads at their start. *)
Definition process_start (fdm : Z) (stack_r stack_w : list byte) : process :=
  {| all_done := 0;
     reader_thread := Running (thread_start (reader_info fdm) stack_r);
     writer_thread := Running (thread_start (writer_info fdm) stack_w) |}.

(** The scheduler lets thread [t] run one step. *)
Definition process_step (fdm : Z) (t : thread_id) (e : cycle_env)
  (p : process) : M process :=
  match thread_of p t with
  | Returned => ret p
  | Running s =>
      r <- pump_step (info_of fdm t) (all_done p) e s ;;
      ret (set_thread p t (fst r) (snd r))
  end.

Fixpoint process_run (fdm : Z) (schedule : list (thread_id * cycle_env))
  (p : process) : M process :=
  match schedule with
  | [] => ret p
  | (t, e) :: schedule' =>
      p' <- process_step fdm t e p ;;
      process_run fdm schedule' p'
  end.

(** [pthread_join] of both threads returns once both have returned. *)
Definition pthread_join_both (p : process) : M unit :=
  match reader_thread p, writer_thread p with
  | Returned, Returned => ret tt
  | _, _ => (Blocked, [])
  end.

(* ================================================================== *)
(** ** main *)

(** What the operating system answers to the calls of [main]. *)
Record main_env : Type := {
  posix_openpt_ret : Z;
  grantpt_ret : Z;
  unlockpt_ret : Z;
  open_ret : Z;
  fork_ret : Z;
  (* in the child *)
  isastream_fds_ret : Z;
  ioctl_ptem_ret : Z;
  ioctl_ldterm_ret : Z;
  tcgetattr_ret : Z;
  tcsetattr_ret : Z;
  setsid_ret : Z;
  dup2_stdin_ret : Z;
  dup2_stdout_ret : Z;
  dup2_stderr_ret : Z;
  child_close_fdm_ret : Z;
  child_close_fds_ret : Z;
  ioctl_tiocsctty_ret : Z;
  execvp_ret : option Z;      (* [None]: the command was started *)
  (* in the parent *)
  close_fds_ret : Z;
  waitpid_ret : Z;
  wait_status : Z;            (* the status stored by waitpid *)
  reader_stack : list byte;
  writer_stack : list byte;
  schedule : list (thread_id * cycle_env);
  close_fdm_ret : Z
}.

Definition sys (name : string) (r : Z) : M Z := emit (EvSys name r) ;; ret r.

(** The branch [pid == 0].  [cfmakeraw] only edits the [termios] structure
    between [tcgetattr] and [tcsetattr], and makes no call. *)
Definition main_child (e : main_env) (exitstatus : Z) : M Z :=
  (if c_true (isastream_fds_ret e) then
     r <- sys "ioctl I_PUSH ptem" (ioctl_ptem_ret e) ;; ASSERT_NONNEG r ;;
     r <- sys "ioctl I_PUSH ldterm" (ioctl_ldterm_ret e) ;; ASSERT_NONNEG r
   else ret tt) ;;
  r <- sys "tcgetattr" (tcgetattr_ret e) ;; ASSERT_ZERO r ;;
  r <- sys "tcsetattr" (tcsetattr_ret e) ;; ASSERT_ZERO r ;;
  r <- sys "setsid" (setsid_ret e) ;; ASSERT_NONNEG r ;;
  r <- sys "dup2 STDIN_FILENO" (dup2_stdin_ret e) ;; ASSERT_NONNEG r ;;
  r <- sys "dup2 STDOUT_FILENO" (dup2_stdout_ret e) ;; ASSERT_NONNEG r ;;
  r <- sys "dup2 STDERR_FILENO" (dup2_stderr_ret e) ;; ASSERT_NONNEG r ;;
  r <- sys "close fdm" (child_close_fdm_ret e) ;; ASSERT_ZERO r ;;
  r <- sys "close fds" (child_close_fds_ret e) ;; ASSERT_ZERO r ;;
  r <- sys "ioctl TIOCSCTTY" (ioctl_tiocsctty_ret e) ;; ASSERT_NONNEG r ;;
  match execvp_ret e with
  | None => (Replaced, [])
  | Some r => r <- sys "execvp" r ;; ASSERT_ZERO r ;; ret exitstatus
  end.

(** The branch of the parent.  The two threads run while [main] closes the
    slave and waits for the child; the model lets them run at the joins,
    which changes the order of the events of different threads in the
    trace and nothing else: an [exit] in any thread ends the process with
    the same status. *)
Definition main_parent (e : main_env) (fdm exitstatus : Z) : M Z :=
  let p := process_start fdm (reader_stack e) (writer_stack e) in
  r <- sys "close fds" (close_fds_ret e) ;; ASSERT_ZERO r ;;
  r <- sys "waitpid" (waitpid_ret e) ;; ASSERT_NONNEG r ;;
  let status := wait_status e in
  p' <- process_run fdm (schedule e) p ;;
  pthread_join_both p' ;;
  let exitstatus :=
    if c_true (WIFEXITED status) then WEXITSTATUS status else exitstatus in
  r <- sys "close fdm" (close_fdm_ret e) ;; ASSERT_ZERO r ;;
  ret exitstatus.

Definition main (argc : Z) (e : main_env) : M Z :=
  let exitstatus := EXIT_FAILURE in
  ASSERT_WITH_MESSAGE (1 <? argc) "Insufficient command line arguments" ;;
  fdm <- sys "posix_openpt" (posix_openpt_ret e) ;; ASSERT_NONNEG fdm ;;
  r <- sys "grantpt" (grantpt_ret e) ;; ASSERT_ZERO r ;;
  r <- sys "unlockpt" (unlockpt_ret e) ;; ASSERT_ZERO r ;;
  fds <- sys "open" (open_ret e) ;; ASSERT_NONNEG fds ;;
  pid <- sys "fork" (fork_ret e) ;; ASSERT_NONNEG pid ;;
  if pid =? 0 then main_child e exitstatus
  else main_parent e fdm exitstatus.

(** The exit status of the process, when it ends. *)
Definition exit_status (m : M Z) : option Z :=
  match fst m with
  | Ok v => Some v
  | Exited v => Some v
  | Replaced => None
  | Blocked => None
  end.

(* ================================================================== *)
(** ** What a trace says *)

(** The bytes the source handed over, in order. *)
Definition read_of (ev : event) : list byte :=
  match ev with
  | EvRead _ _ r data => takeZ r data
  | _ => []
  end.

(** The bytes the destination accepted, in order. *)
Definition written_of (ev : event) : list byte :=
  match ev with
  | EvWrite _ data _ r => takeZ r data
  | _ => []
  end.

Definition bytes_read (tr : list event) : list byte := flat_map read_of tr.

Definition bytes_written (tr : list event) : list byte :=
  flat_map written_of tr.

Definition is_read (ev : event) : bool :=
  match ev with EvRead _ _ _ _ => true | _ => false end.

Definition is_write (ev : event) : bool :=
  match ev with EvWrite _ _ _ _ => true | _ => false end.

(** [read] and [write] did not fail and kept to their contract: at most
    [count] bytes, and [read] stored as many bytes as it says. *)
Definition event_ok (ev : event) : bool :=
  match ev with
  | EvRead _ count r data =>
      (0 <=? r) && (r <=? count) && (Z.of_nat (List.length data) =? r)
  | EvWrite _ _ count r => (0 <=? r) && (r <=? count)
  | _ => true
  end.

Definition io_ok (tr : list event) : bool := forallb event_ok tr.

(* ================================================================== *)
(** ** Notions used to state the properties *)

(** The transfer buffer is well formed: offset and length are within the
    array, and the pending bytes are really there. *)
Definition buffer_inv (s : pump_state) : Prop :=
  0 <= buffer_offset s /\ 0 <= buffer_length s /\
  buffer_offset s + buffer_length s <= BUFFER_SIZE /\
  Z.of_nat (List.length (pending s)) = buffer_length s.

(** The pending bytes of the state a computation ends in, if any. *)
Definition pend_state (o : outcome pump_state) : list byte :=
  match o with Ok s => pending s | _ => [] end.

Definition pend_thread (o : outcome thread) : list byte :=
  match o with Ok (Running s) => pending s | _ => [] end.

(** What may follow the relayed bytes on the destination: nothing, or one
    end-of-transmission byte from a pump told to send it. *)
Definition trailer_ok (info : redirection_info) (tl : list byte) : Prop :=
  tl = [] \/ (tl = [eot_char] /\ c_true (send_eot info) = true).

(** The events of a failed [poll] or of any failed [ASSERT]. *)
Definition poll_event (s : pump_state) (e : cycle_env) : event :=
  EvPoll (poll_fd0 s) (poll_fd1 s) (poll_ret e).

Definition perror_exit : list event :=
  [EvStderr (ASSERT_PROGRAM_NAME ++ ": ")%string; EvPerror;
   EvExit EXIT_FAILURE].

(** The relation between what a pump has read and what it has written. *)
Definition relay_inv (info : redirection_info) (o : outcome thread)
  (tr : list event) (hup : bool) : Prop :=
  exists relayed dropped trailer,
    bytes_read tr = (relayed ++ pend_thread o ++ dropped)%list /\
    bytes_written tr = (relayed ++ trailer)%list /\
    trailer_ok info trailer /\
    (forall s, o = Ok (Running s) ->
       buffer_inv s /\
       (trailer <> [] \/ dropped <> [] ->
        keep_going s = 0 /\ buffer_length s = 0)) /\
    (forall th, o = Ok th -> dropped <> [] -> hup = true).

(** No iteration of the script sees a hang-up on the destination. *)
Definition no_dest_hangup (script : list (Z * cycle_env)) : bool :=
  negb (existsb (fun x => dest_hangup_seen (snd x)) script).

(** The read and write calls found in a trace. *)
Definition reads_in (tr : list event) : list event := filter is_read tr.

Definition writes_in (tr : list event) : list event := filter is_write tr.

(** The single call of the end-of-file block. *)
Definition final_write (info : redirection_info) (e : cycle_env)
  (s : pump_state) : event :=
  if wants_eot info e
  then EvWrite (poll_fd1 s) [eot_char] 1 (write_ret e)
  else EvWrite (poll_fd1 s) [] 0 (write_ret e).

(** The pump is still in its loop: the next loop condition can hold. *)
Definition live (s : pump_state) : bool :=
  c_true (keep_going s) || c_true (buffer_length s).

(** A computation that, when it calls [exit], does so with
    [EXIT_FAILURE]. *)
Definition exits_with_failure {A} (m : M A) : Prop :=
  forall st, fst m = Exited st -> st = EXIT_FAILURE.

(** Every call of [main] up to and including [fork] succeeds. *)
Definition setup_ok (argc : Z) (e : main_env) : bool :=
  (1 <? argc) && (0 <=? posix_openpt_ret e) && (grantpt_ret e =? 0)
  && (unlockpt_ret e =? 0) && (0 <=? open_ret e) && (0 <=? fork_ret e).

(** The calls of the parent after [fork] succeed. *)
Definition parent_ok (e : main_env) : bool :=
  (close_fds_ret e =? 0) && (0 <=? waitpid_ret e) && (close_fdm_ret e =? 0).

(** On the schedule of the environment both threads return. *)
Definition pumps_return (e : main_env) : Prop :=
  exists p t,
    process_run (posix_openpt_ret e) (schedule e)
      (process_start (posix_openpt_ret e) (reader_stack e) (writer_stack e))
    = (Ok p, t) /\
    reader_thread p = Returned /\ writer_thread p = Returned.

(** The number of bytes still to be written, in the words of the
    specification: length minus offset. *)
Definition spec_remaining (s : pump_state) : Z :=
  buffer_length s - buffer_offset s.

(* ================================================================== *)
(** ** Further notions: descriptors, the flag, the child *)

(** The descriptors in the state of a pump: the source is the one of the
    pump until end of file and -1 from then on; the destination is the one
    of the pump, or -1 in a pump that has stopped with an empty buffer. *)
Definition fd_inv (info : redirection_info) (s : pump_state) : Prop :=
  ((found_eof s = 0 /\ poll_fd0 s = in_fd info) \/
   (found_eof s = 1 /\ poll_fd0 s = -1)) /\
  (poll_fd1 s = out_fd info \/
   (poll_fd1 s = -1 /\ keep_going s = 0 /\ buffer_length s = 0)) /\
  (keep_going s = 0 \/ keep_going s = 1).

(** The descriptors in the calls of a pump. *)
Definition event_fds_ok (info : redirection_info) (ev : event) : bool :=
  match ev with
  | EvPoll f0 f1 _ =>
      ((f0 =? in_fd info) || (f0 =? -1)) && (f1 =? out_fd info)
  | EvRead fd _ _ _ => fd =? in_fd info
  | EvWrite fd _ count _ =>
      (fd =? out_fd info) || ((fd =? -1) && (count <=? 1))
  | EvFsync fd _ => (fd =? out_fd info) || (fd =? -1)
  | _ => true
  end.

Definition fds_ok (info : redirection_info) (tr : list event) : bool :=
  forallb (event_fds_ok info) tr.

(** The flag tells whether the writer has left its loop. *)
Definition flag_inv (p : process) : Prop :=
  (all_done p = 0 /\ writer_thread p <> Returned) \/
  (all_done p = 1 /\ writer_thread p = Returned).

(** Every call of the child before [execvp] succeeds. *)
Definition child_ok (e : main_env) : bool :=
  (if c_true (isastream_fds_ret e)
   then (0 <=? ioctl_ptem_ret e) && (0 <=? ioctl_ldterm_ret e)
   else true)
  && (tcgetattr_ret e =? 0) && (tcsetattr_ret e =? 0)
  && (0 <=? setsid_ret e)
  && (0 <=? dup2_stdin_ret e) && (0 <=? dup2_stdout_ret e)
  && (0 <=? dup2_stderr_ret e)
  && (child_close_fdm_ret e =? 0) && (child_close_fds_ret e =? 0)
  && (0 <=? ioctl_tiocsctty_ret e).

(** A trace that ends with the diagnostic of an assertion and [exit]. *)
Definition ends_with_diagnostic (tr : list event) : Prop :=
  exists pre d,
    tr = (pre ++ [EvStderr "terminator: "; d; EvExit EXIT_FAILURE])%list /\
    (d = EvPerror \/ exists msg, d = EvStderr msg).

(** A computation whose trace ends with a diagnostic when it exits. *)
Definition exits_with_diagnostic {A} (m : M A) : Prop :=
  forall st, fst m = Exited st -> ends_with_diagnostic (snd m).

End Program.

(* ================================================================== *)
(** ** cfmakeraw *)

(** The flags of <termios.h> that [cfmakeraw] names, and [ICANON], which it
    names in a comment only.  Like the other system constants they are
    parameters. *)
Class TermiosFlags := {
  IMAXBEL : Z; IGNBRK : Z; BRKINT : Z; PARMRK : Z; ISTRIP : Z;
  INLCR : Z; IGNCR : Z; ICRNL : Z; IXON : Z;          (* c_iflag *)
  OPOST : Z;                                           (* c_oflag *)
  ECHO : Z; ECHONL : Z; ICANON : Z; ISIG : Z; IEXTEN : Z;  (* c_lflag *)
  CSIZE : Z; PARENB : Z; CS8 : Z                       (* c_cflag *)
}.

(** The values of System V (Solaris, and Linux as well), used to run the
    model on examples. *)
Definition sysv_termios : TermiosFlags := {|
  IMAXBEL := 8192; IGNBRK := 1; BRKINT := 2; PARMRK := 8; ISTRIP := 32;
  INLCR := 64; IGNCR := 128; ICRNL := 256; IXON := 1024;
  OPOST := 1;
  ECHO := 8; ECHONL := 64; ICANON := 2; ISIG := 1; IEXTEN := 32768;
  CSIZE := 48; PARENB := 256; CS8 := 48
|}.

(** The four flag words of [struct termios]; a [tcflag_t] is unsigned, so
    clearing bits with [&= ~mask] is [Z.land] with the complement. *)
Record termios : Type := {
  c_iflag : Z;
  c_oflag : Z;
  c_cflag : Z;
  c_lflag : Z
}.

Section Termios.

Context {T : TermiosFlags}.

Definition iflag_mask : Z :=
  Z.lor (Z.lor (Z.lor (Z.lor (Z.lor (Z.lor (Z.lor (Z.lor
    IMAXBEL IGNBRK) BRKINT) PARMRK) ISTRIP) INLCR) IGNCR) ICRNL) IXON.

Definition lflag_mask : Z :=
  Z.lor (Z.lor (Z.lor ECHO ECHONL) ISIG) IEXTEN.

Definition cflag_mask : Z := Z.lor CSIZE PARENB.

(** Put a terminal into raw mode. *)
Definition cfmakeraw (termios_p : termios) : termios :=
  {| c_iflag := Z.land (c_iflag termios_p) (Z.lnot iflag_mask);
     c_oflag := Z.land (c_oflag termios_p) (Z.lnot OPOST);
     c_cflag := Z.lor (Z.land (c_cflag termios_p) (Z.lnot cflag_mask)) CS8;
     c_lflag := Z.land (c_lflag termios_p) (Z.lnot lflag_mask) |}.

End Termios.

(** A terminal in the usual cooked mode: [ICRNL | IXON], [OPOST],
    [CS8 | PARENB] and [ISIG | ICANON | ECHO | IEXTEN]. *)
Definition cooked : termios :=
  {| c_iflag := 1280; c_oflag := 1; c_cflag := 304; c_lflag := 32779 |}.


(* ================================================================== *)
(** ** Scenarios *)

(** [poll] times out: nothing is ready. *)
Definition quiet : cycle_env :=
  {| poll_ret := 0; revents0 := 0; revents1 := 0;
     read_ret := 0; read_data := []; write_ret := 0; fsync_ret := 0;
     isastream_ret := 0; isatty_ret := 0 |}.

(** The source is readable and [read] gives two bytes. *)
Definition e_read_hi : cycle_env :=
  {| poll_ret := 1; revents0 := 1; revents1 := 0;
     read_ret := 2; read_data := ["h"; "i"]%byte;
     write_ret := 0; fsync_ret := 0; isastream_ret := 0; isatty_ret := 0 |}.

(** The destination is writable and takes two bytes. *)
Definition e_write2 : cycle_env :=
  {| poll_ret := 1; revents0 := 0; revents1 := 4;
     read_ret := 0; read_data := []; write_ret := 2; fsync_ret := 0;
     isastream_ret := 0; isatty_ret := 0 |}.

(** Hang-up on the source; the destination is a writable terminal. *)
Definition e_eof_tty : cycle_env :=
  {| poll_ret := 2; revents0 := 16; revents1 := 4;
     read_ret := 0; read_data := []; write_ret := 1; fsync_ret := 0;
     isastream_ret := 0; isatty_ret := 1 |}.

(** Hang-up on the source; the destination is a writable pipe or file. *)
Definition e_eof_file : cycle_env :=
  {| poll_ret := 2; revents0 := 16; revents1 := 4;
     read_ret := 0; read_data := []; write_ret := 0; fsync_ret := 0;
     isastream_ret := 0; isatty_ret := 0 |}.

(** The source is readable and [read] returns 0. *)
Definition e_read_zero : cycle_env :=
  {| poll_ret := 1; revents0 := 1; revents1 := 0;
     read_ret := 0; read_data := []; write_ret := 0; fsync_ret := 0;
     isastream_ret := 0; isatty_ret := 0 |}.

(** Hang-up on the destination. *)
Definition e_dest_hup : cycle_env :=
  {| poll_ret := 1; revents0 := 0; revents1 := 16;
     read_ret := 0; read_data := []; write_ret := 0; fsync_ret := 0;
     isastream_ret := 0; isatty_ret := 0 |}.

(** Four bytes are read and the destination takes one of them. *)
Definition e_read4_write1 : cycle_env :=
  {| poll_ret := 2; revents0 := 1; revents1 := 4;
     read_ret := 4; read_data := ["a"; "b"; "c"; "d"]%byte;
     write_ret := 1; fsync_ret := 0; isastream_ret := 0; isatty_ret := 0 |}.

(** The source is readable but [read] fails and returns -1. *)
Definition e_read_error : cycle_env :=
  {| poll_ret := 1; revents0 := 1; revents1 := 0;
     read_ret := -1; read_data := []; write_ret := 0; fsync_ret := 0;
     isastream_ret := 0; isatty_ret := 0 |}.

(** The destination is writable but [write] fails and returns -1. *)
Definition e_write_error : cycle_env :=
  {| poll_ret := 1; revents0 := 0; revents1 := 4;
     read_ret := 0; read_data := []; write_ret := -1; fsync_ret := 0;
     isastream_ret := 0; isatty_ret := 0 |}.

(** Both ends hang up in the same [poll], and the destination, a
    pseudo-terminal master whose slave was closed, is reported writable as
    well (POLLHUP | POLLOUT).  The calls on the descriptor -1 fail. *)
Definition e_hup_both_writable : cycle_env :=
  {| poll_ret := 2; revents0 := 16; revents1 := 20;
     read_ret := 0; read_data := []; write_ret := -1; fsync_ret := -1;
     isastream_ret := -1; isatty_ret := 0 |}.

(** Two bytes go through, then the input ends. *)
Definition relay_script : list (Z * cycle_env) :=
  [(0, e_read_hi); (0, e_write2); (0, e_eof_tty); (0, quiet)].

(** Two bytes are read, then the destination hangs up. *)
Definition discard_script : list (Z * cycle_env) :=
  [(0, e_read_hi); (0, e_dest_hup); (0, quiet)].

(** The destination is writable and takes four bytes. *)
Definition e_write4 : cycle_env :=
  {| poll_ret := 1; revents0 := 0; revents1 := 4;
     read_ret := 0; read_data := []; write_ret := 4; fsync_ret := 0;
     isastream_ret := 0; isatty_ret := 0 |}.

(** What happens to be on the stack where the buffer is. *)
Definition junk_stack : list byte := ["j"; "u"; "n"; "k"]%byte.

(** The two pumps of [main] at their start, the master being descriptor 3. *)
Definition fresh_reader : pump_state :=
  @thread_start (@reader_info linux_glibc 3) [].


(** The reader on [relay_script]. *)
Definition hi_run : M thread :=
  @redirection_thread_fn linux_glibc (@reader_info linux_glibc 3) []
    relay_script.

(** The reader after four bytes are read and one is written. *)
Definition partial_state : pump_state :=
  {| keep_going := 1; found_eof := 0; poll_fd0 := 0; poll_fd1 := 3;
     buffer := ["a"; "b"; "c"; "d"]%byte;
     buffer_length := 3; buffer_offset := 1 |}.

Definition partial_trace : list event :=
  snd (@redirection_thread_fn linux_glibc (@reader_info linux_glibc 3) []
         [(0, e_read4_write1)]).

(** The child exits with status 7; the writer sees the hang-up of the
    pseudo-terminal and ends the session, the reader sees the flag. *)
Definition env_exit7 : main_env :=
  {| posix_openpt_ret := 3; grantpt_ret := 0; unlockpt_ret := 0;
     open_ret := 4; fork_ret := 1234;
     isastream_fds_ret := 0; ioctl_ptem_ret := 0; ioctl_ldterm_ret := 0;
     tcgetattr_ret := 0; tcsetattr_ret := 0; setsid_ret := 0;
     dup2_stdin_ret := 0; dup2_stdout_ret := 1; dup2_stderr_ret := 2;
     child_close_fdm_ret := 0; child_close_fds_ret := 0;
     ioctl_tiocsctty_ret := 0; execvp_ret := None;
     close_fds_ret := 0; waitpid_ret := 1234; wait_status := 1792;
     reader_stack := []; writer_stack := [];
     schedule := [(Writer, e_eof_file); (Reader, quiet); (Writer, quiet);
                  (Reader, quiet)];
     close_fdm_ret := 0 |}.

(** The same session, but the child is killed by signal 9. *)
Definition env_killed : main_env :=
  {| posix_openpt_ret := 3; grantpt_ret := 0; unlockpt_ret := 0;
     open_ret := 4; fork_ret := 1234;
     isastream_fds_ret := 0; ioctl_ptem_ret := 0; ioctl_ldterm_ret := 0;
     tcgetattr_ret := 0; tcsetattr_ret := 0; setsid_ret := 0;
     dup2_stdin_ret := 0; dup2_stdout_ret := 1; dup2_stderr_ret := 2;
     child_close_fdm_ret := 0; child_close_fds_ret := 0;
     ioctl_tiocsctty_ret := 0; execvp_ret := None;
     close_fds_ret := 0; waitpid_ret := 1234; wait_status := 9;
     reader_stack := []; writer_stack := [];
     schedule := [(Writer, e_eof_file); (Reader, quiet); (Writer, quiet);
                  (Reader, quiet)];
     close_fdm_ret := 0 |}.

(** No pseudo-terminal can be allocated. *)
Definition env_no_pty : main_env :=
  {| posix_openpt_ret := -1; grantpt_ret := 0; unlockpt_ret := 0;
     open_ret := 4; fork_ret := 1234;
     isastream_fds_ret := 0; ioctl_ptem_ret := 0; ioctl_ldterm_ret := 0;
     tcgetattr_ret := 0; tcsetattr_ret := 0; setsid_ret := 0;
     dup2_stdin_ret := 0; dup2_stdout_ret := 1; dup2_stderr_ret := 2;
     child_close_fdm_ret := 0; child_close_fds_ret := 0;
     ioctl_tiocsctty_ret := 0; execvp_ret := None;
     close_fds_ret := 0; waitpid_ret := 1234; wait_status := 0;
     reader_stack := []; writer_stack := []; schedule := [];
     close_fdm_ret := 0 |}.



(* ================================================================== *)
(** ** More scenarios *)

(** [poll] fails. *)
Definition e_poll_error : cycle_env :=
  {| poll_ret := -1; revents0 := 0; revents1 := 0;
     read_ret := 0; read_data := []; write_ret := 0; fsync_ret := 0;
     isastream_ret := 0; isatty_ret := 0 |}.

(** The source hangs up, the destination is a writable terminal, but the
    [write] of the end-of-transmission byte fails. *)
Definition e_eot_error : cycle_env :=
  {| poll_ret := 2; revents0 := 16; revents1 := 4;
     read_ret := 0; read_data := []; write_ret := -1; fsync_ret := 0;
     isastream_ret := 0; isatty_ret := 1 |}.

(** The source has hung up but still has two bytes to read
    (POLLHUP | POLLIN). *)
Definition e_hup_with_data : cycle_env :=
  {| poll_ret := 1; revents0 := 17; revents1 := 0;
     read_ret := 2; read_data := ["h"; "i"]%byte;
     write_ret := 0; fsync_ret := 0; isastream_ret := 0; isatty_ret := 0 |}.

(** The reader holding the two bytes it has just read. *)
Definition holding_hi : pump_state :=
  {| keep_going := 1; found_eof := 0; poll_fd0 := 0; poll_fd1 := 3;
     buffer := ["h"; "i"]%byte; buffer_length := 2; buffer_offset := 0 |}.

(** The reader holding four bytes, none written yet. *)
Definition holding_abcd : pump_state :=
  {| keep_going := 1; found_eof := 0; poll_fd0 := 0; poll_fd1 := 3;
     buffer := ["a"; "b"; "c"; "d"]%byte;
     buffer_length := 4; buffer_offset := 0 |}.

(** The child exits with status 7, but [poll] fails in the reader. *)
Definition env_pump_fails : main_env :=
  {| posix_openpt_ret := 3; grantpt_ret := 0; unlockpt_ret := 0;
     open_ret := 4; fork_ret := 1234;
     isastream_fds_ret := 0; ioctl_ptem_ret := 0; ioctl_ldterm_ret := 0;
     tcgetattr_ret := 0; tcsetattr_ret := 0; setsid_ret := 0;
     dup2_stdin_ret := 0; dup2_stdout_ret := 1; dup2_stderr_ret := 2;
     child_close_fdm_ret := 0; child_close_fds_ret := 0;
     ioctl_tiocsctty_ret := 0; execvp_ret := None;
     close_fds_ret := 0; waitpid_ret := 1234; wait_status := 1792;
     reader_stack := []; writer_stack := [];
     schedule := [(Reader, e_poll_error)];
     close_fdm_ret := 0 |}.

(** The child exits with status 7 and the pumps return, but the master
    cannot be closed. *)
Definition env_close_fails : main_env :=
  {| posix_openpt_ret := 3; grantpt_ret := 0; unlockpt_ret := 0;
     open_ret := 4; fork_ret := 1234;
     isastream_fds_ret := 0; ioctl_ptem_ret := 0; ioctl_ldterm_ret := 0;
     tcgetattr_ret := 0; tcsetattr_ret := 0; setsid_ret := 0;
     dup2_stdin_ret := 0; dup2_stdout_ret := 1; dup2_stderr_ret := 2;
     child_close_fdm_ret := 0; child_close_fds_ret := 0;
     ioctl_tiocsctty_ret := 0; execvp_ret := None;
     close_fds_ret := 0; waitpid_ret := 1234; wait_status := 1792;
     reader_stack := []; writer_stack := [];
     schedule := [(Writer, e_eof_file); (Reader, quiet); (Writer, quiet);
                  (Reader, quiet)];
     close_fdm_ret := -1 |}.

(** A reader that has seen the end of its input and the flag, still
    holding two bytes. *)
Definition draining_after_eof : pump_state :=
  {| keep_going := 0; found_eof := 1; poll_fd0 := -1; poll_fd1 := 3;
     buffer := ["h"; "i"]%byte; buffer_length := 2; buffer_offset := 0 |}.

(** The same reader after one of the two bytes is written. *)
Definition draining_one_left : pump_state :=
  {| keep_going := 0; found_eof := 1; poll_fd0 := -1; poll_fd1 := 3;
     buffer := ["h"; "i"]%byte; buffer_length := 1; buffer_offset := 1 |}.

(** A pump with a retired destination that still holds bytes.  No run
    reaches such a state; it is there to try the code on it. *)
Definition retired_holding : pump_state :=
  {| keep_going := 0; found_eof := 1; poll_fd0 := -1; poll_fd1 := -1;
     buffer := ["h"; "i"]%byte; buffer_length := 2; buffer_offset := 0 |}.

(** The state a computation ends in, or [d]. *)
Definition state_of (m : M pump_state) (d : pump_state) : pump_state :=
  match fst m with Ok s => s | _ => d end.

(** A writer that has finished its work: stopped, with an empty buffer. *)
Definition writer_stopped : pump_state :=
  {| keep_going := 0; found_eof := 1; poll_fd0 := -1; poll_fd1 := 1;
     buffer := []; buffer_length := 0; buffer_offset := 0 |}.

(** The writer is about to leave its loop, the reader has not run yet. *)
Definition writer_about_to_return : process :=
  {| all_done := 0;
     reader_thread := Running fresh_reader;
     writer_thread := Running writer_stopped |}.

(** The writer has returned, the reader has not run yet. *)
Definition writer_done : process :=
  {| all_done := 1;
     reader_thread := Running fresh_reader;
     writer_thread := Returned |}.

(** Both threads have returned. *)
Definition both_done : process :=
  {| all_done := 1; reader_thread := Returned; writer_thread := Returned |}.

(** The process after [fork], seen from the child: the command starts. *)
Definition env_child : main_env :=
  {| posix_openpt_ret := 3; grantpt_ret := 0; unlockpt_ret := 0;
     open_ret := 4; fork_ret := 0;
     isastream_fds_ret := 0; ioctl_ptem_ret := 0; ioctl_ldterm_ret := 0;
     tcgetattr_ret := 0; tcsetattr_ret := 0; setsid_ret := 1234;
     dup2_stdin_ret := 0; dup2_stdout_ret := 1; dup2_stderr_ret := 2;
     child_close_fdm_ret := 0; child_close_fds_ret := 0;
     ioctl_tiocsctty_ret := 0; execvp_ret := None;
     close_fds_ret := 0; waitpid_ret := 0; wait_status := 0;
     reader_stack := []; writer_stack := []; schedule := [];
     close_fdm_ret := 0 |}.

(* ================================================================== *)
(** ** Lists of bytes as memory *)

Lemma takeZ_firstn {A} (l : list A) : forall n,
  takeZ n l = firstn (Z.to_nat n) l.
Proof.
  induction l as [|x t IH]; intros n; simpl.
  - now rewrite firstn_nil.
  - destruct (Z.leb_spec n 0) as [Hn|Hn].
    + replace (Z.to_nat n) with 0%nat by lia. reflexivity.
    + replace (Z.to_nat n) with (S (Z.to_nat (n - 1))) by lia.
      simpl. now rewrite IH.
Qed.

Lemma dropZ_skipn {A} (l : list A) : forall n,
  dropZ n l = skipn (Z.to_nat n) l.
Proof.
  induction l as [|x t IH]; intros n; simpl.
  - now rewrite skipn_nil.
  - destruct (Z.leb_spec n 0) as [Hn|Hn].
    + replace (Z.to_nat n) with 0%nat by lia. reflexivity.
    + replace (Z.to_nat n) with (S (Z.to_nat (n - 1))) by lia.
      simpl. now rewrite IH.
Qed.

Lemma takeZ_all {A} (l : list A) n :
  Z.of_nat (List.length l) <= n -> takeZ n l = l.
Proof.
  intros H. rewrite takeZ_firstn. apply firstn_all2. lia.
Qed.

Lemma takeZ_none {A} (l : list A) n : n <= 0 -> takeZ n l = [].
Proof.
  intros H. rewrite takeZ_firstn.
  replace (Z.to_nat n) with 0%nat by lia. reflexivity.
Qed.

Lemma takeZ_length {A} (l : list A) n :
  0 <= n <= Z.of_nat (List.length l) ->
  Z.of_nat (List.length (takeZ n l)) = n.
Proof.
  intros H. rewrite takeZ_firstn, length_firstn. lia.
Qed.

(** Writing [k] of [n] pending bytes splits them in two. *)
Lemma takeZ_split {A} (l : list A) k n :
  0 <= k <= n ->
  takeZ n l = (takeZ k (takeZ n l) ++ takeZ (n - k) (dropZ k l))%list.
Proof.
  intros H. rewrite !takeZ_firstn, dropZ_skipn.
  rewrite firstn_firstn.
  replace (Nat.min (Z.to_nat k) (Z.to_nat n)) with (Z.to_nat k) by lia.
  replace (Z.to_nat n) with (Z.to_nat k + Z.to_nat (n - k))%nat at 1 by lia.
  rewrite <- (firstn_skipn (Z.to_nat k) l) at 1.
  rewrite firstn_app.
  destruct (Nat.le_gt_cases (Z.to_nat k) (List.length l)) as [Hl|Hl].
  - rewrite length_firstn.
    replace (Nat.min (Z.to_nat k) (List.length l)) with (Z.to_nat k) by lia.
    replace (Z.to_nat k + Z.to_nat (n - k) - Z.to_nat k)%nat
      with (Z.to_nat (n - k)) by lia.
    f_equal. apply firstn_all2. rewrite length_firstn. lia.
  - rewrite (skipn_all2 l) by lia. rewrite !firstn_nil, !app_nil_r.
    rewrite firstn_firstn. f_equal. lia.
Qed.

Lemma dropZ_dropZ {A} (l : list A) a b :
  0 <= a -> 0 <= b -> dropZ (a + b) l = dropZ b (dropZ a l).
Proof.
  intros Ha Hb. rewrite !dropZ_skipn, skipn_skipn. f_equal. lia.
Qed.

Lemma pending_overwrite {A} (data l : list A) :
  takeZ (Z.of_nat (List.length data)) (dropZ 0 (overwrite data l)) = data.
Proof.
  unfold overwrite. rewrite takeZ_firstn, dropZ_skipn. simpl.
  rewrite Nat2Z.id, firstn_app, Nat.sub_diag, firstn_all. simpl.
  apply app_nil_r.
Qed.

(* ================================================================== *)
(** ** The pump, block by block *)

Section Properties.

Context {P : Platform}.

Lemma to_size_t_id x : 0 <= x <= SIZE_MAX -> to_size_t x = x.
Proof. unfold to_size_t, SIZE_MAX. intros H. apply Z.mod_small. lia. Qed.

Lemma to_size_t_nonneg x : (0 <=? to_size_t x) = true.
Proof.
  unfold to_size_t. apply Z.leb_le. apply Z.mod_pos_bound. reflexivity.
Qed.

Lemma pending_empty s : buffer_length s = 0 -> pending s = [].
Proof. intros H. unfold pending. rewrite H. now apply takeZ_none. Qed.

Lemma io_ok_app t1 t2 : io_ok (t1 ++ t2) = io_ok t1 && io_ok t2.
Proof. apply forallb_app. Qed.

Lemma bytes_read_app t1 t2 :
  bytes_read (t1 ++ t2) = (bytes_read t1 ++ bytes_read t2)%list.
Proof. apply flat_map_app. Qed.

Lemma bytes_written_app t1 t2 :
  bytes_written (t1 ++ t2) = (bytes_written t1 ++ bytes_written t2)%list.
Proof. apply flat_map_app. Qed.

Lemma drain_summary e s o t :
  BUFFER_SIZE <= SIZE_MAX -> buffer_inv s ->
  drain e s = (o, t) -> io_ok t = true ->
  bytes_read t = [] /\
  exists dropped,
    pending s = (bytes_written t ++ pend_state o ++ dropped)%list /\
    forall s', o = Ok s' ->
      dropped = [] /\ buffer_inv s' /\ keep_going s' = keep_going s /\
      found_eof s' = found_eof s /\ buffer_offset s <= buffer_offset s'.
Proof.
  intros Hcap (Hoff & Hlen & Hsum & Hpl) Hd Hio.
  unfold drain, sys_write, sys_fsync, ASSERT_NONNEG, ASSERT_ZERO, ASSERT in Hd.
  cbn in Hd. rewrite to_size_t_nonneg in Hd. cbn in Hd.
  assert (Hw : 0 <= write_ret e <= buffer_length s).
  { destruct (fsync_ret e =? 0); inversion Hd; subst t; cbn in Hio; lia. }
  assert (Hsplit := takeZ_split (dropZ (buffer_offset s) (buffer s))
                      (write_ret e) (buffer_length s) Hw).
  fold (pending s) in Hsplit.
  rewrite (to_size_t_id (write_ret e)) in Hd by lia.
  rewrite (to_size_t_id (buffer_length s - write_ret e)) in Hd by lia.
  rewrite (to_size_t_id (buffer_offset s + write_ret e)) in Hd by lia.
  destruct (fsync_ret e =? 0); inversion Hd; subst o t; clear Hd; cbn;
    rewrite app_nil_r; (split; [reflexivity|]).
  - exists []. split.
    + rewrite app_nil_r, dropZ_dropZ by lia. exact Hsplit.
    + intros s' Hs'. inversion Hs'; subst s'; clear Hs'.
      unfold buffer_inv, pending. cbn.
      rewrite dropZ_dropZ by lia.
      assert (Hpl' := Hpl).
      rewrite Hsplit, length_app, Nat2Z.inj_add in Hpl'.
      rewrite takeZ_length in Hpl' by lia.
      repeat split; lia.
  - exists (takeZ (buffer_length s - write_ret e)
              (dropZ (write_ret e) (dropZ (buffer_offset s) (buffer s)))).
    split; [exact Hsplit | intros s' Hs'; discriminate].
Qed.

Lemma wants_eot_send info e :
  wants_eot info e = true -> c_true (send_eot info) = true.
Proof. unfold wants_eot. intros H. now apply andb_prop in H. Qed.

Lemma buffer_inv_pending_eq s s' :
  buffer s' = buffer s -> buffer_length s' = buffer_length s ->
  buffer_offset s' = buffer_offset s -> buffer_inv s -> buffer_inv s'.
Proof.
  unfold buffer_inv, pending. intros -> -> ->. trivial.
Qed.

Lemma finish_summary info e s o t :
  finish info e s = (o, t) -> io_ok t = true ->
  bytes_read t = [] /\
  trailer_ok info (bytes_written t) /\
  forall s', o = Ok s' ->
    keep_going s' = 0 /\ found_eof s' = found_eof s /\
    buffer s' = buffer s /\ buffer_length s' = buffer_length s /\
    buffer_offset s' = buffer_offset s.
Proof.
  intros Hf Hio.
  unfold finish, sys_write, sys_fsync, ASSERT_NONNEG, ASSERT_ZERO, ASSERT in Hf.
  destruct (wants_eot info e) eqn:Hw; cbn in Hf;
    destruct (Z.leb_spec 0 (write_ret e)) as [Hr|Hr]; cbn in Hf;
    destruct (fsync_ret e =? 0) eqn:Hs; cbn in Hf;
    inversion Hf; subst o t; clear Hf; cbn in Hio |- *;
    rewrite ?app_nil_r, ?andb_true_r in *;
    try (apply andb_prop in Hio; destruct Hio as [_ Hio];
         apply Z.leb_le in Hio);
    try (apply Z.leb_le in Hio; lia);
    (split; [reflexivity|]);
    (split; [|intros s' Hs'; inversion Hs'; subst s'; cbn; auto]).
  all: try (left; reflexivity).
  all: apply wants_eot_send in Hw.
  all: destruct (Z.leb_spec (write_ret e) 0) as [H0|H0];
       [left; reflexivity | right; split; [|exact Hw]].
  all: destruct (Z.leb_spec (write_ret e - 1) 0); [reflexivity|lia].
Qed.

Lemma on_writable_summary info e s o t :
  BUFFER_SIZE <= SIZE_MAX -> buffer_inv s ->
  on_writable info e s = (o, t) -> io_ok t = true ->
  bytes_read t = [] /\
  exists w tl dropped,
    bytes_written t = (w ++ tl)%list /\
    pending s = (w ++ pend_state o ++ dropped)%list /\
    trailer_ok info tl /\
    forall s', o = Ok s' ->
      dropped = [] /\ buffer_inv s' /\
      (tl <> [] -> keep_going s' = 0 /\ buffer_length s' = 0) /\
      (keep_going s = 0 -> keep_going s' = 0) /\
      (buffer_length s = 0 -> buffer_length s' = 0).
Proof.
  intros Hcap Hinv Hw Hio. unfold on_writable in Hw.
  destruct (Z.ltb_spec 0 (buffer_length s)) as [Hlen|Hlen].
  - destruct (drain_summary e s o t Hcap Hinv Hw Hio) as (Hr & d & Hp & Hok).
    split; [exact Hr|].
    exists (bytes_written t), [], d. rewrite app_nil_r.
    split; [reflexivity|]. split; [exact Hp|]. split; [now left|].
    intros s' Hs'. destruct (Hok s' Hs') as (-> & Hi' & Hk & _).
    split; [reflexivity|]. split; [exact Hi'|].
    split; [intros H; now contradiction H|].
    split; [congruence|lia].
  - assert (Hl0 : buffer_length s = 0) by (destruct Hinv; lia).
    destruct (c_true (found_eof s)).
    + destruct (finish_summary info e s o t Hw Hio) as (Hr & Htl & Hok).
      split; [exact Hr|].
      exists [], (bytes_written t), []. cbn. rewrite app_nil_r.
      split; [reflexivity|].
      rewrite (pending_empty s Hl0).
      split.
      { destruct o as [s'| | |]; cbn; try reflexivity.
        destruct (Hok s' eq_refl) as (_ & _ & _ & Hl' & _).
        symmetry. apply pending_empty. congruence. }
      split; [exact Htl|].
      intros s' Hs'. destruct (Hok s' Hs') as (Hk & _ & Hb & Hl' & Ho').
      split; [reflexivity|].
      split; [eapply buffer_inv_pending_eq; eauto|].
      split; [intros _; split; congruence|].
      split; [intros _; exact Hk|congruence].
    + inversion Hw; subst o t; clear Hw. cbn.
      split; [reflexivity|].
      exists [], [], []. cbn. rewrite app_nil_r.
      split; [reflexivity|]. split; [reflexivity|]. split; [now left|].
      intros s' Hs'. inversion Hs'; subst s'.
      split; [reflexivity|]. split; [exact Hinv|].
      split; [intros H; now contradiction H|]. split; trivial.
Qed.

Lemma fill_summary e s o t :
  0 <= BUFFER_SIZE <= SIZE_MAX ->
  fill e s = (o, t) -> io_ok t = true ->
  exists s', o = Ok s' /\ bytes_written t = [] /\
    bytes_read t = pending s' /\ buffer_inv s' /\
    keep_going s' = keep_going s.
Proof.
  intros Hcap Hf Hio.
  unfold fill, sys_read, ASSERT_NONNEG, ASSERT in Hf. cbn in Hf.
  rewrite to_size_t_nonneg in Hf. cbn in Hf.
  rewrite (to_size_t_id BUFFER_SIZE) in Hf by lia.
  assert (Hr : 0 <= read_ret e <= BUFFER_SIZE /\
               Z.of_nat (List.length (read_data e)) = read_ret e).
  { destruct (to_size_t (read_ret e) =? 0); inversion Hf; subst t;
      cbn in Hio; lia. }
  destruct Hr as [Hr Hd].
  rewrite (to_size_t_id (read_ret e)) in Hf by lia.
  destruct (Z.leb_spec 0 (read_ret e)) as [_|]; [|lia].
  assert (Hp : takeZ (read_ret e) (dropZ 0 (overwrite (read_data e) (buffer s)))
               = read_data e).
  { rewrite <- Hd. apply pending_overwrite. }
  destruct (read_ret e =? 0); inversion Hf; subst o t; clear Hf;
    eexists; (split; [reflexivity|]); cbn; unfold buffer_inv, pending; cbn;
    rewrite app_nil_r, (takeZ_all (read_data e)), Hp by lia;
    repeat split; lia.
Qed.

Lemma loop_body_cases info e s :
  (poll_ret e < 0 /\
   loop_body info e s = (Exited EXIT_FAILURE, poll_event s e :: perror_exit))
  \/
  (0 <= poll_ret e /\
   loop_body info e s =
     (fst (transfer info e (hangups e s)),
      poll_event s e :: snd (transfer info e (hangups e s)))).
Proof.
  unfold loop_body.
  destruct (transfer info e (hangups e s)) as [o l].
  unfold sys_poll, ASSERT_NONNEG, ASSERT, perror_exit, poll_event. cbn.
  destruct (Z.leb_spec 0 (poll_ret e)) as [H|H]; [right|left];
    (split; [exact H|reflexivity]).
Qed.

Lemma hangups_pending e s :
  buffer_inv s ->
  buffer_inv (hangups e s) /\
  (if dest_hangup_seen e
   then keep_going (hangups e s) = 0 /\ buffer_length (hangups e s) = 0
   else pending (hangups e s) = pending s).
Proof.
  intros Hinv. unfold hangups.
  set (s0 := if source_hangup_seen e then on_source_hangup s else s).
  assert (Hs0 : buffer s0 = buffer s /\ buffer_length s0 = buffer_length s /\
                buffer_offset s0 = buffer_offset s).
  { unfold s0. destruct (source_hangup_seen e); cbn; auto. }
  destruct Hs0 as (Hb0 & Hl0 & Ho0).
  destruct (dest_hangup_seen e).
  - split; [|now split].
    destruct Hinv as (? & ? & ? & _).
    unfold buffer_inv, pending. cbn. rewrite takeZ_none by lia. cbn. lia.
  - split; [eapply buffer_inv_pending_eq; eauto|].
    unfold pending. now rewrite Hb0, Hl0, Ho0.
Qed.

Lemma transfer_summary info e s o t :
  BUFFER_SIZE <= SIZE_MAX -> buffer_inv s ->
  transfer info e s = (o, t) -> io_ok t = true ->
  exists w tl dropped,
    bytes_written t = (w ++ tl)%list /\
    (pending s ++ bytes_read t = w ++ pend_state o ++ dropped)%list /\
    trailer_ok info tl /\
    (keep_going s = 0 -> bytes_read t = []) /\
    forall s', o = Ok s' ->
      dropped = [] /\ buffer_inv s' /\
      (tl <> [] -> keep_going s' = 0 /\ buffer_length s' = 0) /\
      (keep_going s = 0 -> buffer_length s = 0 ->
       keep_going s' = 0 /\ buffer_length s' = 0).
Proof.
  intros Hcap Hinv Hb Hio.
  assert (Hcap0 : 0 <= BUFFER_SIZE <= SIZE_MAX)
    by (destruct Hinv as (? & ? & ? & _); lia).
  unfold transfer in Hb.
  destruct (fill_enabled e s) eqn:Hfe.
  - (* fill: the buffer was empty *)
    assert (Hl0 : buffer_length s = 0 /\ keep_going s <> 0).
    { unfold fill_enabled, c_true in Hfe.
      repeat (apply andb_prop in Hfe; destruct Hfe as [Hfe ?]).
      split; [lia|]. intros Hk. rewrite Hk in Hfe. discriminate. }
    destruct Hl0 as [Hl0 Hk0].
    rewrite (pending_empty s Hl0). cbn [app].
    destruct (fill e s) as [o1 t1] eqn:Hf.
    assert (Hio1 : io_ok t1 = true).
    { unfold bind in Hb. destruct o1; [|congruence..].
      destruct (if dest_writable e then on_writable info e a else ret a).
      inversion Hb; subst. rewrite io_ok_app in Hio.
      now apply andb_prop in Hio. }
    destruct (fill_summary e s o1 t1 Hcap0 Hf Hio1)
      as (s1 & -> & Hw1 & Hr1 & Hinv1 & Hk1).
    unfold bind in Hb.
    destruct (dest_writable e).
    + destruct (on_writable info e s1) as [o2 t2] eqn:Hw.
      inversion Hb; subst o t; clear Hb.
      rewrite io_ok_app in Hio. apply andb_prop in Hio.
      destruct Hio as [_ Hio2].
      destruct (on_writable_summary info e s1 o2 t2 Hcap Hinv1 Hw Hio2)
        as (Hr & w & tl & d & Hwr & Hp & Htl & Hok).
      exists w, tl, d.
      rewrite bytes_written_app, bytes_read_app, Hw1, Hr1, Hr, Hwr.
      rewrite app_nil_r. cbn [app].
      split; [reflexivity|]. split; [exact Hp|]. split; [exact Htl|].
      split; [intros Hk; now contradiction Hk0|].
      intros s' Hs'. destruct (Hok s' Hs') as (-> & Hi' & Hst & _).
      split; [reflexivity|]. split; [exact Hi'|]. split; [exact Hst|].
      intros Hk; now contradiction Hk0.
    + inversion Hb; subst o t; clear Hb. cbn [pend_state].
      exists [], [], []. rewrite !app_nil_r, Hw1, Hr1.
      split; [reflexivity|]. split; [reflexivity|]. split; [now left|].
      split; [intros Hk; now contradiction Hk0|].
      intros s' Hs'. inversion Hs'; subst s'.
      split; [reflexivity|]. split; [exact Hinv1|].
      split; [intros H; now contradiction H|].
      intros Hk; now contradiction Hk0.
  - (* no fill *)
    unfold bind, ret in Hb. destruct (dest_writable e).
    + destruct (on_writable info e s) as [o2 t2] eqn:Hw.
      inversion Hb; subst o t; clear Hb. cbn [app] in Hio |- *.
      destruct (on_writable_summary info e s o2 t2 Hcap Hinv Hw Hio)
        as (Hr & w & tl & d & Hwr & Hp & Htl & Hok).
      exists w, tl, d. rewrite Hr, app_nil_r.
      split; [exact Hwr|]. split; [exact Hp|]. split; [exact Htl|].
      split; [reflexivity|].
      intros s' Hs'. destruct (Hok s' Hs') as (-> & Hi' & Hst & Hk & Hl).
      split; [reflexivity|]. split; [exact Hi'|]. split; [exact Hst|].
      intros H1 H2. split; auto.
    + inversion Hb; subst o t; clear Hb. cbn.
      exists [], [], []. rewrite !app_nil_r.
      split; [reflexivity|]. split; [reflexivity|]. split; [now left|].
      split; [reflexivity|].
      intros s' Hs'. inversion Hs'; subst s'.
      split; [reflexivity|]. split; [exact Hinv|].
      split; [intros H; now contradiction H|]. intros; now split.
Qed.

(** One pass through the body: what was pending or read in this pass is
    written, still pending, or dropped, in this order. *)
Lemma loop_body_summary info e s o t :
  BUFFER_SIZE <= SIZE_MAX -> buffer_inv s ->
  loop_body info e s = (o, t) -> io_ok t = true ->
  exists w tl dropped,
    bytes_written t = (w ++ tl)%list /\
    (pending s ++ bytes_read t = w ++ pend_state o ++ dropped)%list /\
    trailer_ok info tl /\
    forall s', o = Ok s' ->
      buffer_inv s' /\
      (tl <> [] \/ dropped <> [] ->
       keep_going s' = 0 /\ buffer_length s' = 0) /\
      (dropped <> [] -> dest_hangup_seen e = true).
Proof.
  intros Hcap Hinv Hb Hio.
  destruct (loop_body_cases info e s) as [[Hp Heq]|[Hp Heq]];
    rewrite Heq in Hb; inversion Hb; subst o t; clear Hb Heq.
  - exists [], [], (pending s). cbn. rewrite app_nil_r.
    split; [reflexivity|]. split; [reflexivity|]. split; [now left|].
    intros s' Hs'. discriminate.
  - destruct (transfer info e (hangups e s)) as [o t] eqn:Ht.
    cbn [fst snd] in *.
    change (poll_event s e :: t) with ([poll_event s e] ++ t)%list in *.
    rewrite io_ok_app in Hio. apply andb_prop in Hio. destruct Hio as [_ Hio].
    rewrite bytes_written_app, bytes_read_app. cbn [app bytes_written bytes_read flat_map poll_event written_of read_of].
    destruct (hangups_pending e s Hinv) as [Hinv1 Hh].
    destruct (transfer_summary info e _ o t Hcap Hinv1 Ht Hio)
      as (w & tl & d & Hwr & Hpe & Htl & Hnr & Hok).
    destruct (dest_hangup_seen e) eqn:Hhup.
    + destruct Hh as [Hk1 Hl1].
      rewrite (pending_empty _ Hl1), (Hnr Hk1) in Hpe. cbn [app] in Hpe.
      symmetry in Hpe. apply app_eq_nil in Hpe. destruct Hpe as [-> Hpe].
      apply app_eq_nil in Hpe. destruct Hpe as [Hpo ->].
      exists [], tl, (pending s). rewrite (Hnr Hk1), Hpo, app_nil_r.
      split; [exact Hwr|]. split; [reflexivity|]. split; [exact Htl|].
      intros s' Hs'. destruct (Hok s' Hs') as (_ & Hi' & _ & Hst).
      split; [exact Hi'|]. split; [intros _; now apply Hst|reflexivity].
    + rewrite Hh in Hpe. exists w, tl, d.
      split; [exact Hwr|]. split; [exact Hpe|]. split; [exact Htl|].
      intros s' Hs'. destruct (Hok s' Hs') as (-> & Hi' & Hst & _).
      split; [exact Hi'|]. split; [|intros H; now contradiction H].
      intros [H|H]; [now apply Hst | now contradiction H].
Qed.

Lemma loop_head_fields flag s :
  let s1 := snd (loop_head flag s) in
  buffer s1 = buffer s /\ buffer_length s1 = buffer_length s /\
  buffer_offset s1 = buffer_offset s /\ found_eof s1 = found_eof s /\
  keep_going s1 = Z.land (keep_going s) (c_not flag).
Proof. cbn. auto. Qed.

Lemma loop_head_stopped flag s :
  keep_going s = 0 -> buffer_length s = 0 -> fst (loop_head flag s) = false.
Proof. intros Hk Hl. unfold loop_head. cbn. rewrite Hk, Hl. reflexivity. Qed.

Lemma nil_or_not {A} (l : list A) : l = [] \/ l <> [].
Proof. destruct l; [now left | now right]. Qed.

Lemma pump_step_inv info flag e s tr0 hup o t :
  BUFFER_SIZE <= SIZE_MAX ->
  relay_inv info (Ok (Running s)) tr0 hup ->
  pump_step info flag e s = (o, t) -> io_ok t = true ->
  relay_inv info (outcome_map fst o) (tr0 ++ t) (hup || dest_hangup_seen e).
Proof.
  intros Hcap (rel & d & tl & Hrd & Hwr & Htl & Hst & Hhup) Hstep Hio.
  destruct (Hst s eq_refl) as [Hinv Hstop].
  cbn [pend_thread] in Hrd.
  unfold pump_step in Hstep.
  destruct (loop_head_fields flag s) as (Hb1 & Hl1 & Ho1 & _ & Hk1).
  destruct (loop_head flag s) as [again s1] eqn:Hhead. cbn [snd] in *.
  destruct again.
  - (* the body runs: nothing was dropped and no EOT was sent so far *)
    assert (Hlive : tl = [] /\ d = []).
    { destruct (nil_or_not tl) as [->|Hn], (nil_or_not d) as [->|Hn'];
        try (split; reflexivity); exfalso;
        (destruct Hstop as [Hk Hl]; [auto|]);
        pose proof (loop_head_stopped flag s Hk Hl) as Hf;
        rewrite Hhead in Hf; discriminate. }
    destruct Hlive as [-> ->]. rewrite app_nil_r in *.
    assert (Hinv1 : buffer_inv s1) by (eapply buffer_inv_pending_eq; eauto).
    assert (Hp1 : pending s1 = pending s).
    { unfold pending. now rewrite Hb1, Hl1, Ho1. }
    destruct (loop_body info e s1) as [o1 t1] eqn:Hbody.
    assert (Ht : t = t1 /\ o = outcome_map (fun s2 => (Running s2, flag)) o1).
    { unfold bind, ret in Hstep. destruct o1; inversion Hstep; subst;
        rewrite ?app_nil_r; now split. }
    destruct Ht as [-> ->]. clear Hstep.
    destruct (loop_body_summary info e s1 o1 t1 Hcap Hinv1 Hbody Hio)
      as (w & tl' & d' & Hw' & Hr' & Htl' & Hok).
    exists (rel ++ w)%list, d', tl'.
    rewrite bytes_read_app, bytes_written_app, Hrd, Hwr, Hw', <- !app_assoc.
    rewrite Hp1 in Hr'.
    split.
    { f_equal. rewrite Hr'. destruct o1 as [s2| | |]; reflexivity. }
    split; [reflexivity|]. split; [exact Htl'|].
    split.
    + intros s2 Hs2. destruct o1 as [s2'| | |]; inversion Hs2; subst s2'.
      destruct (Hok s2 eq_refl) as (Hi2 & Hst2 & _). now split.
    + intros th Hth Hd'. destruct o1 as [s2'| | |]; inversion Hth.
      destruct (Hok s2' eq_refl) as (_ & _ & Hh2).
      rewrite (Hh2 Hd'). apply orb_true_r.
  - (* the loop ends *)
    inversion Hstep; subst o t; clear Hstep. cbn [outcome_map fst].
    assert (Hl0 : buffer_length s = 0).
    { unfold loop_head in Hhead. inversion Hhead as [[Ha Hs1]].
      apply orb_false_elim in Ha. destruct Ha as [_ Ha].
      unfold c_true in Ha. apply negb_false_iff in Ha. now apply Z.eqb_eq. }
    exists rel, d, tl. rewrite app_nil_r.
    rewrite (pending_empty s Hl0) in Hrd.
    split; [exact Hrd|]. split; [exact Hwr|]. split; [exact Htl|].
    split; [intros s' Hs'; discriminate|].
    intros th _ Hd. rewrite (Hhup _ eq_refl Hd). reflexivity.
Qed.

Lemma relay_inv_weaken info o tr h h' :
  (h = true -> h' = true) -> relay_inv info o tr h -> relay_inv info o tr h'.
Proof.
  intros Hh (rel & d & tl & H1 & H2 & H3 & H4 & H5).
  exists rel, d, tl. repeat (split; [assumption|]). eauto.
Qed.

Lemma pump_run_inv info script : forall th tr0 hup o t,
  BUFFER_SIZE <= SIZE_MAX ->
  relay_inv info (Ok th) tr0 hup ->
  pump_run info script th = (o, t) -> io_ok t = true ->
  relay_inv info o (tr0 ++ t)
    (hup || existsb (fun x => dest_hangup_seen (snd x)) script).
Proof.
  induction script as [|[flag e] script IH]; intros th tr0 hup o t Hcap Hinv Hrun Hio.
  - destruct th; inversion Hrun; subst; rewrite app_nil_r;
      (eapply relay_inv_weaken; [|exact Hinv]); intros ->; reflexivity.
  - destruct th as [s|].
    + cbn [pump_run] in Hrun.
      destruct (pump_step info flag e s) as [o1 t1] eqn:Hstep.
      unfold bind in Hrun.
      destruct o1 as [[th1 flag1]| | |].
      * destruct (pump_run info script (fst (th1, flag1))) as [o2 t2] eqn:Hrun2.
        inversion Hrun; subst o t; clear Hrun.
        rewrite io_ok_app in Hio. apply andb_prop in Hio.
        destruct Hio as [Hio1 Hio2].
        pose proof (pump_step_inv info flag e s tr0 hup _ _ Hcap Hinv Hstep Hio1)
          as Hinv1.
        cbn [outcome_map fst] in Hinv1, Hrun2.
        pose proof (IH th1 _ _ _ _ Hcap Hinv1 Hrun2 Hio2) as Hinv2.
        rewrite app_assoc. eapply relay_inv_weaken; [|exact Hinv2].
        cbn [existsb snd]. now rewrite orb_assoc.
      * inversion Hrun; subst o t; clear Hrun.
        pose proof (pump_step_inv info flag e s tr0 hup _ _ Hcap Hinv Hstep Hio)
          as Hinv1.
        eapply relay_inv_weaken; [|exact Hinv1].
        cbn [existsb snd]. intros H. rewrite orb_assoc, H. reflexivity.
      * inversion Hrun; subst o t; clear Hrun.
        pose proof (pump_step_inv info flag e s tr0 hup _ _ Hcap Hinv Hstep Hio)
          as Hinv1.
        eapply relay_inv_weaken; [|exact Hinv1].
        cbn [existsb snd]. intros H. rewrite orb_assoc, H. reflexivity.
      * inversion Hrun; subst o t; clear Hrun.
        pose proof (pump_step_inv info flag e s tr0 hup _ _ Hcap Hinv Hstep Hio)
          as Hinv1.
        eapply relay_inv_weaken; [|exact Hinv1].
        cbn [existsb snd]. intros H. rewrite orb_assoc, H. reflexivity.
    + inversion Hrun; subst; rewrite app_nil_r.
      eapply relay_inv_weaken; [|exact Hinv]. intros ->. reflexivity.
Qed.

(** The state a pump thread starts in satisfies the invariant. *)
Lemma thread_start_inv info stack :
  0 <= BUFFER_SIZE ->
  relay_inv info (Ok (Running (thread_start info stack))) [] false.
Proof.
  intros Hcap. exists [], [], []. cbn.
  split; [now rewrite takeZ_none by lia|].
  split; [reflexivity|]. split; [now left|].
  split; [|intros; congruence].
  intros s Hs. inversion Hs; subst s. split.
  - unfold buffer_inv, pending. cbn. rewrite takeZ_none by lia. cbn. lia.
  - intros [H|H]; now contradiction H.
Qed.

(** C1 (amended).  Whatever a pump does on a script whose [read] and
    [write] calls succeed, the bytes it has written are an initial part of
    the bytes it has read, in order and without gap or repetition, followed
    by at most one end-of-transmission byte, which only a pump configured
    with [send_eot] sends.  The bytes read and not written are the pending
    ones, followed by those dropped by a destination hang-up: when the
    script has no destination hang-up nothing is dropped, so a pump that
    has returned wrote every byte it read.  Inside the drain the offset only
    moves forward. *)
Theorem relay_in_order info stack script o tr :
  0 <= BUFFER_SIZE <= SIZE_MAX ->
  redirection_thread_fn info stack script = (o, tr) ->
  io_ok tr = true ->
  (exists relayed dropped trailer,
     bytes_read tr = (relayed ++ pend_thread o ++ dropped)%list /\
     bytes_written tr = (relayed ++ trailer)%list /\
     (trailer = [] \/ trailer = [eot_char] /\ c_true (send_eot info) = true) /\
     (forall th, o = Ok th -> no_dest_hangup script = true -> dropped = []) /\
     (o = Ok Returned -> no_dest_hangup script = true ->
      bytes_written tr = (bytes_read tr ++ trailer)%list)) /\
  (forall e s s' t, buffer_inv s -> drain e s = (Ok s', t) ->
     io_ok t = true -> buffer_offset s <= buffer_offset s').
Proof.
  intros Hcap Hrun Hio. split.
  - unfold redirection_thread_fn in Hrun.
    assert (Hcap' : BUFFER_SIZE <= SIZE_MAX) by lia.
    pose proof (pump_run_inv info script _ [] false o tr Hcap'
                  (thread_start_inv info stack (proj1 Hcap)) Hrun Hio) as Hinv.
    cbn [app orb] in Hinv.
    destruct Hinv as (rel & d & tl & Hrd & Hwr & Htl & _ & Hhup).
    exists rel, d, tl.
    split; [exact Hrd|]. split; [exact Hwr|]. split; [exact Htl|].
    assert (Hd : forall th, o = Ok th -> no_dest_hangup script = true -> d = []).
    { intros th Hth Hno. destruct (nil_or_not d) as [Hd|Hd]; [exact Hd|].
      unfold no_dest_hangup in Hno. rewrite (Hhup th Hth Hd) in Hno.
      discriminate. }
    split; [exact Hd|].
    intros Ho Hno. rewrite Hrd, Hwr, (Hd _ Ho Hno). subst o. cbn.
    now rewrite app_nil_r.
  - intros e s s' t Hinv Hd Hio'.
    destruct (drain_summary e s _ t (proj2 Hcap) Hinv Hd Hio') as (_ & d & _ & Hok).
    now destruct (Hok s' eq_refl) as (_ & _ & _ & _ & H).
Qed.

(* ---------------------------------------------------------------- *)

Lemma exit_status_bind {A} (m : M A) (f : A -> M Z) :
  exit_status (x <- m ;; f x) =
  match fst m with
  | Ok a => exit_status (f a)
  | Exited st => Some st
  | Replaced => None
  | Blocked => None
  end.
Proof.
  unfold exit_status, bind. destruct m as [[a|st| |] t]; cbn; try reflexivity.
  now destruct (f a).
Qed.

Lemma fst_ASSERT b : fst (ASSERT b) = if b then Ok tt else Exited EXIT_FAILURE.
Proof. now destruct b. Qed.

Lemma fst_ASSERT_WITH_MESSAGE b msg :
  fst (ASSERT_WITH_MESSAGE b msg) = if b then Ok tt else Exited EXIT_FAILURE.
Proof. now destruct b. Qed.

Lemma fst_sys name r : fst (sys name r) = Ok r.
Proof. reflexivity. Qed.

Ltac step_main :=
  rewrite exit_status_bind;
  rewrite ?fst_sys, ?fst_ASSERT_WITH_MESSAGE;
  unfold ASSERT_NONNEG, ASSERT_ZERO; rewrite ?fst_ASSERT.

Lemma main_parent_exit e fdm :
  fdm = posix_openpt_ret e -> parent_ok e = true -> pumps_return e ->
  exit_status (main_parent e fdm EXIT_FAILURE) =
  Some (if c_true (WIFEXITED (wait_status e))
        then WEXITSTATUS (wait_status e) else EXIT_FAILURE).
Proof.
  intros -> Hp (p & t & Hrun & Hr & Hw).
  unfold parent_ok in Hp.
  apply andb_prop in Hp. destruct Hp as [Hp H3].
  apply andb_prop in Hp. destruct Hp as [H1 H2].
  unfold main_parent.
  step_main. step_main. rewrite H1. step_main. step_main. rewrite H2.
  step_main. rewrite Hrun. cbn [fst].
  step_main. unfold pthread_join_both. rewrite Hr, Hw. cbn [fst ret].
  step_main. step_main. rewrite H3. reflexivity.
Qed.

(** Every [exit] of the program goes through an assertion. *)
Lemma ewf_ret {A} (a : A) : exits_with_failure (ret a).
Proof. intros st H. discriminate. Qed.

Lemma ewf_emit ev : exits_with_failure (emit ev).
Proof. intros st H. discriminate. Qed.

Lemma ewf_ASSERT b : exits_with_failure (ASSERT b).
Proof. intros st H. destruct b; cbn in H; congruence. Qed.

Lemma ewf_ASSERT_WITH_MESSAGE b msg :
  exits_with_failure (ASSERT_WITH_MESSAGE b msg).
Proof. intros st H. destruct b; cbn in H; congruence. Qed.

Lemma ewf_bind {A B} (m : M A) (f : A -> M B) :
  exits_with_failure m -> (forall a, exits_with_failure (f a)) ->
  exits_with_failure (x <- m ;; f x).
Proof.
  intros Hm Hf st H. unfold bind in H.
  destruct m as [[a|st'| |] t]; cbn in H; try discriminate.
  - specialize (Hf a st). destruct (f a) as [o t']. cbn in *. auto.
  - apply Hm. cbn. congruence.
Qed.

Ltac ewf :=
  repeat first
    [ apply ewf_ret | apply ewf_emit | apply ewf_ASSERT
    | apply ewf_ASSERT_WITH_MESSAGE
    | apply ewf_bind; [|intros ?]
    | match goal with
      | |- exits_with_failure (if ?c then _ else _) => destruct c
      end ].

Lemma ewf_loop_body info e s : exits_with_failure (loop_body info e s).
Proof.
  unfold loop_body, transfer, on_writable, fill, drain, finish,
    sys_poll, sys_read, sys_write, sys_fsync, ASSERT_NONNEG, ASSERT_ZERO.
  ewf.
Qed.

Lemma ewf_pump_step info flag e s :
  exits_with_failure (pump_step info flag e s).
Proof.
  unfold pump_step. destruct (loop_head flag s) as [[|] s1].
  - apply ewf_bind; [apply ewf_loop_body | intros; apply ewf_ret].
  - apply ewf_ret.
Qed.

Lemma ewf_process_run fdm sched : forall p,
  exits_with_failure (process_run fdm sched p).
Proof.
  induction sched as [|[t e] sched IH]; intros p; cbn [process_run].
  - apply ewf_ret.
  - apply ewf_bind; [|intros; apply IH].
    unfold process_step. destruct (thread_of p t); [|apply ewf_ret].
    apply ewf_bind; [apply ewf_pump_step | intros; apply ewf_ret].
Qed.

Lemma ewf_main argc e : exits_with_failure (main argc e).
Proof.
  unfold main, main_child, main_parent, sys, ASSERT_NONNEG, ASSERT_ZERO.
  ewf.
  - destruct (execvp_ret e); ewf. intros st H. discriminate.
  - apply ewf_process_run.
  - unfold pthread_join_both.
    match goal with
    | |- context [reader_thread ?p] =>
        destruct (reader_thread p), (writer_thread p)
    end; intros st H; discriminate.
Qed.

(** What [main] returns, when it returns. *)
Lemma main_returns argc e v :
  fst (main argc e) = Ok v ->
  v = EXIT_FAILURE \/
  (c_true (WIFEXITED (wait_status e)) = true /\
   v = WEXITSTATUS (wait_status e)).
Proof.
  assert (Hb : forall A (m : M A) (f : A -> M Z) (Q : Prop),
            (forall a, fst (f a) = Ok v -> Q) ->
            fst (x <- m ;; f x) = Ok v -> Q).
  { intros A m f Q Hf H. unfold bind in H.
    destruct m as [[a| | |] t]; cbn in H; try discriminate.
    apply (Hf a). now destruct (f a). }
  unfold main, main_child, main_parent.
  repeat (apply Hb; intros ?).
  match goal with |- context [if ?c then _ else _] => destruct c end.
  - repeat (apply Hb; intros ?).
    destruct (execvp_ret e); [|discriminate].
    repeat (apply Hb; intros ?). cbn. intros H; inversion H. now left.
  - repeat (apply Hb; intros ?). cbn. intros H; inversion H.
    destruct (c_true (WIFEXITED (wait_status e))); [right|left]; auto.
Qed.

(** C2 (amended).  In the parent, once the pseudo-terminal is set up and
    the child is forked, and the calls of the parent succeed and both pumps
    return, the exit status of the program is the exit status of the child
    when the child exited ([WIFEXITED]), and [EXIT_FAILURE] when it ended
    otherwise (killed by a signal).  The program exits with [EXIT_FAILURE]
    when a step of the setup fails, when a call of the parent fails, and
    when a pump ends the process on a fatal failure, whatever the status of
    the child.  In every case, and in the child before [execvp] as well, a
    process that ends does so with [EXIT_FAILURE] or, the child having
    exited, with the exit status of the child. *)
Theorem exit_status_contract argc e :
  (setup_ok argc e = true -> fork_ret e <> 0 -> parent_ok e = true ->
   pumps_return e -> c_true (WIFEXITED (wait_status e)) = true ->
   exit_status (main argc e) = Some (WEXITSTATUS (wait_status e))) /\
  (setup_ok argc e = true -> fork_ret e <> 0 -> parent_ok e = true ->
   pumps_return e -> c_true (WIFEXITED (wait_status e)) = false ->
   exit_status (main argc e) = Some EXIT_FAILURE) /\
  (setup_ok argc e = false -> exit_status (main argc e) = Some EXIT_FAILURE) /\
  (forall st, exit_status (main argc e) = Some st ->
     st = EXIT_FAILURE \/
     (c_true (WIFEXITED (wait_status e)) = true /\
      st = WEXITSTATUS (wait_status e))) /\
  (setup_ok argc e = true -> fork_ret e <> 0 ->
   (close_fds_ret e =? 0) && (0 <=? waitpid_ret e) = false ->
   exit_status (main argc e) = Some EXIT_FAILURE) /\
  (setup_ok argc e = true -> fork_ret e <> 0 ->
   (exists st,
      fst (process_run (posix_openpt_ret e) (schedule e)
             (process_start (posix_openpt_ret e) (reader_stack e)
                (writer_stack e))) = Exited st) ->
   exit_status (main argc e) = Some EXIT_FAILURE) /\
  (setup_ok argc e = true -> fork_ret e <> 0 -> pumps_return e ->
   parent_ok e = false ->
   exit_status (main argc e) = Some EXIT_FAILURE).
Proof.
  assert (Hmain : setup_ok argc e = true -> fork_ret e <> 0 ->
            exit_status (main argc e) =
            exit_status (main_parent e (posix_openpt_ret e) EXIT_FAILURE)).
  { intros Hs Hf. unfold setup_ok in Hs.
    repeat (apply andb_prop in Hs; destruct Hs as [Hs ?]).
    unfold main. step_main. rewrite Hs.
    do 2 step_main. rewrite H3. do 2 step_main. rewrite H2.
    do 2 step_main. rewrite H1. do 2 step_main. rewrite H0.
    do 2 step_main. rewrite H.
    destruct (Z.eqb_spec (fork_ret e) 0); [contradiction|reflexivity]. }
  split; [|split; [|split; [|split; [|split; [|split]]]]].
  4:{ intros st H. unfold exit_status in H.
      destruct (fst (main argc e)) as [v|v| |] eqn:Hm; inversion H; subst v.
      - now apply (main_returns argc e).
      - left. now apply (ewf_main argc e). }
  4:{ intros Hs Hf Hc. rewrite (Hmain Hs Hf). unfold main_parent.
      do 2 step_main. destruct (close_fds_ret e =? 0); [|reflexivity].
      do 2 step_main. destruct (0 <=? waitpid_ret e); [|reflexivity].
      discriminate. }
  4:{ intros Hs Hf [st Hst]. rewrite (Hmain Hs Hf). unfold main_parent.
      do 2 step_main. destruct (close_fds_ret e =? 0); [|reflexivity].
      do 2 step_main. destruct (0 <=? waitpid_ret e); [|reflexivity].
      step_main. rewrite Hst. f_equal.
      exact (ewf_process_run _ _ _ st Hst). }
  4:{ intros Hs Hf (p & t & Hrun & Hr & Hw) Hp. rewrite (Hmain Hs Hf).
      unfold main_parent, parent_ok in *.
      do 2 step_main. destruct (close_fds_ret e =? 0); [|reflexivity].
      do 2 step_main. destruct (0 <=? waitpid_ret e); [|reflexivity].
      step_main. rewrite Hrun. cbn [fst].
      step_main. unfold pthread_join_both. rewrite Hr, Hw. cbn [fst ret].
      do 2 step_main. destruct (close_fdm_ret e =? 0); [discriminate|].
      reflexivity. }
  - intros Hs Hf Hp Hr Hx. rewrite (Hmain Hs Hf).
    rewrite (main_parent_exit e _ eq_refl Hp Hr), Hx. reflexivity.
  - intros Hs Hf Hp Hr Hx. rewrite (Hmain Hs Hf).
    rewrite (main_parent_exit e _ eq_refl Hp Hr), Hx. reflexivity.
  - intros Hs. unfold setup_ok in Hs. unfold main.
    step_main. destruct (1 <? argc); [|reflexivity].
    do 2 step_main. destruct (0 <=? posix_openpt_ret e); [|reflexivity].
    do 2 step_main. destruct (grantpt_ret e =? 0); [|reflexivity].
    do 2 step_main. destruct (unlockpt_ret e =? 0); [|reflexivity].
    do 2 step_main. destruct (0 <=? open_ret e); [|reflexivity].
    do 2 step_main. destruct (0 <=? fork_ret e); [|reflexivity].
    discriminate.
Qed.

(** C10.  Called with no command ([argc] at most 1), [main] prints the
    program name and "Insufficient command line arguments" on the standard
    error and exits with [EXIT_FAILURE]; it makes no other call: no
    pseudo-terminal is allocated and no child is forked. *)
Theorem no_command_is_fatal argc e :
  argc <= 1 ->
  main argc e =
  (Exited EXIT_FAILURE,
   [EvStderr "terminator: ";
    EvStderr ("Insufficient command line arguments" ++ newline)%string;
    EvExit EXIT_FAILURE]).
Proof.
  intros H. unfold main.
  destruct (Z.ltb_spec 1 argc) as [H1|H1]; [lia|]. reflexivity.
Qed.

(* ---------------------------------------------------------------- *)

Lemma fill_result e s :
  exists s',
    fill e s =
      (Ok s', [EvRead (poll_fd0 s) (to_size_t BUFFER_SIZE) (read_ret e)
                 (read_data e)]) /\
    buffer_length s' = to_size_t (read_ret e) /\
    buffer_offset s' = 0 /\ keep_going s' = keep_going s /\
    poll_fd1 s' = poll_fd1 s /\
    (if to_size_t (read_ret e) =? 0
     then found_eof s' = 1 /\ poll_fd0 s' = -1
     else found_eof s' = found_eof s /\ poll_fd0 s' = poll_fd0 s).
Proof.
  unfold fill, sys_read, ASSERT_NONNEG, ASSERT. cbn.
  rewrite to_size_t_nonneg. cbn.
  destruct (to_size_t (read_ret e) =? 0) eqn:H; eexists;
    (split; [reflexivity|]); cbn; rewrite ?H; repeat split.
Qed.

Lemma on_writable_source info e s s' t :
  on_writable info e s = (Ok s', t) ->
  found_eof s' = found_eof s /\ poll_fd0 s' = poll_fd0 s /\
  poll_fd1 s' = poll_fd1 s.
Proof.
  unfold on_writable, drain, finish, sys_write, sys_fsync,
    ASSERT_NONNEG, ASSERT_ZERO, ASSERT.
  cbn. rewrite to_size_t_nonneg. cbn.
  destruct (0 <? buffer_length s); [|destruct (c_true (found_eof s));
    [destruct (wants_eot info e); cbn; destruct (0 <=? write_ret e); cbn|]];
    try destruct (fsync_ret e =? 0); cbn;
    intros H; inversion H; subst; cbn; auto.
Qed.

Lemma on_writable_no_read info e s :
  existsb is_read (snd (on_writable info e s)) = false.
Proof.
  unfold on_writable, drain, finish, sys_write, sys_fsync,
    ASSERT_NONNEG, ASSERT_ZERO, ASSERT.
  cbn. rewrite to_size_t_nonneg. cbn.
  destruct (0 <? buffer_length s); [|destruct (c_true (found_eof s));
    [destruct (wants_eot info e); cbn; destruct (0 <=? write_ret e); cbn|]];
    try destruct (fsync_ret e =? 0); reflexivity.
Qed.

(** With successful calls on the destination, the write block goes on. *)
Lemma on_writable_ok info e s :
  0 <= write_ret e -> fsync_ret e = 0 ->
  exists s', fst (on_writable info e s) = Ok s'.
Proof.
  intros Hw Hf.
  unfold on_writable, drain, finish, sys_write, sys_fsync,
    ASSERT_NONNEG, ASSERT_ZERO, ASSERT.
  cbn. rewrite to_size_t_nonneg, Hf. cbn.
  destruct (Z.leb_spec 0 (write_ret e)); [|lia].
  destruct (0 <? buffer_length s); [|destruct (c_true (found_eof s));
    [destruct (wants_eot info e)|]]; cbn; eexists; reflexivity.
Qed.

Lemma transfer_cases info e s :
  (fill_enabled e s = false /\
   transfer info e s = (if dest_writable e then on_writable info e s else ret s))
  \/
  (fill_enabled e s = true /\
   exists s1 r,
     fill e s = (Ok s1, [r]) /\ is_read r = true /\
     transfer info e s =
       (fst (if dest_writable e then on_writable info e s1 else ret s1),
        r :: snd (if dest_writable e then on_writable info e s1 else ret s1))).
Proof.
  unfold transfer. destruct (fill_enabled e s); [right|left];
    (split; [reflexivity|]).
  - destruct (fill_result e s) as (s1 & Hf & _).
    eexists s1, _. split; [exact Hf|]. split; [reflexivity|].
    rewrite Hf. unfold bind. cbn beta iota.
    destruct (dest_writable e); [destruct (on_writable info e s1)|];
      reflexivity.
  - unfold bind, ret.
    destruct (dest_writable e); [destruct (on_writable info e s)|];
      reflexivity.
Qed.

Lemma fill_enabled_hangups e s :
  fill_enabled e (hangups e s) = true ->
  fill_enabled e s = true /\ dest_hangup_seen e = false /\
  source_hangup_seen e = false /\ hangups e s = s.
Proof.
  unfold hangups.
  destruct (dest_hangup_seen e); [discriminate|].
  destruct (source_hangup_seen e) eqn:Hs.
  - unfold fill_enabled. cbn. rewrite andb_false_r. discriminate.
  - auto.
Qed.

(** C6.  End of input on the source is not a failure.  When [poll] reports
    a hang-up on the source with nothing to read, and when the fill reads
    zero bytes, an iteration that goes on leaves the source retired
    ([poll_fds[0].fd] is -1) and the pump in the end-of-file state
    ([found_eof] is 1); and the iteration does go on, without exit, as long
    as the calls on the destination succeed. *)
Theorem source_eof_is_modeled info e s :
  0 <= poll_ret e ->
  source_hangup_seen e = true \/
  (fill_enabled e s = true /\ dest_hangup_seen e = false /\ read_ret e = 0) ->
  (forall s' t, loop_body info e s = (Ok s', t) ->
     found_eof s' = 1 /\ poll_fd0 s' = -1) /\
  (0 <= write_ret e -> fsync_ret e = 0 ->
   exists s', fst (loop_body info e s) = Ok s').
Proof.
  intros Hpoll Hcase.
  destruct (loop_body_cases info e s) as [[Hp _]|[_ Heq]]; [lia|].
  rewrite Heq. clear Heq. cbn [fst].
  assert (Hwr : forall s1,
            found_eof s1 = 1 /\ poll_fd0 s1 = -1 ->
            (forall s', fst (if dest_writable e then on_writable info e s1
                             else ret s1) = Ok s' ->
               found_eof s' = 1 /\ poll_fd0 s' = -1) /\
            (0 <= write_ret e -> fsync_ret e = 0 ->
             exists s', fst (if dest_writable e then on_writable info e s1
                             else ret s1) = Ok s')).
  { intros s1 [H1 H2]. split.
    - intros s' Ht. destruct (dest_writable e).
      + destruct (on_writable info e s1) as [o1 t1] eqn:Hw.
        cbn in Ht. subst o1.
        destruct (on_writable_source info e s1 s' t1 Hw) as (-> & -> & _).
        now split.
      + cbn in Ht. inversion Ht; subst s'. now split.
    - intros Hw Hf. destruct (dest_writable e).
      + now apply on_writable_ok.
      + eexists; reflexivity. }
  destruct (transfer_cases info e (hangups e s))
    as [[Hfe Ht]|[Hfe (s1 & r & Hf & Hr & Ht)]]; rewrite Ht; clear Ht;
    cbn [fst snd].
  - (* no fill: the hang-up was seen *)
    destruct Hcase as [Hhup|(Hfe' & Hd & _)].
    + assert (Hh : found_eof (hangups e s) = 1 /\ poll_fd0 (hangups e s) = -1).
      { unfold hangups. rewrite Hhup.
        destruct (dest_hangup_seen e); cbn; auto. }
      destruct (Hwr _ Hh) as [Ha Hb]. split; [|exact Hb].
      intros s' t Hb'. inversion Hb' as [[Ho Htr]]. now apply Ha.
    + unfold hangups in Hfe. rewrite Hd in Hfe.
      destruct (source_hangup_seen e) eqn:Hs; [|congruence].
      unfold fill_enabled, source_hangup_seen in *.
      apply andb_prop in Hs. destruct Hs as [_ Hs].
      apply negb_true_iff in Hs. rewrite Hs, andb_false_r in Hfe'.
      discriminate.
  - (* fill *)
    destruct (fill_enabled_hangups e s Hfe) as (Hfe' & Hd & Hs & Hhs).
    destruct Hcase as [Hhup|(_ & _ & Hz)]; [congruence|].
    destruct (fill_result e (hangups e s)) as (s1' & Hf' & _ & _ & _ & _ & Hz').
    rewrite Hf in Hf'. inversion Hf'; subst s1'.
    rewrite Hz in Hz'. cbn in Hz'.
    destruct (Hwr _ Hz') as [Ha Hb]. split; [|exact Hb].
    intros s' t Hb'. inversion Hb' as [[Ho Htr]]. now apply Ha.
Qed.

(* ---------------------------------------------------------------- *)

Lemma loop_body_reads info e s :
  reads_in (snd (loop_body info e s)) = [] \/
  (fill_enabled e s = true /\ dest_hangup_seen e = false /\
   exists r, reads_in (snd (loop_body info e s)) = [r]).
Proof.
  assert (Hnr : forall s1,
            reads_in (snd (if dest_writable e then on_writable info e s1
                           else ret s1)) = []).
  { intros s1. unfold reads_in. destruct (dest_writable e); [|reflexivity].
    pose proof (on_writable_no_read info e s1) as H.
    induction (snd (on_writable info e s1)) as [|x l IH]; [reflexivity|].
    cbn in H |- *. apply orb_false_elim in H. destruct H as [-> H]. auto. }
  destruct (loop_body_cases info e s) as [[_ Heq]|[_ Heq]]; rewrite Heq;
    cbn [snd]; [left; reflexivity|].
  destruct (transfer_cases info e (hangups e s))
    as [[Hfe Ht]|[Hfe (s1 & r & Hf & Hr & Ht)]]; rewrite Ht; cbn [snd].
  - left. unfold reads_in. cbn [filter poll_event is_read]. apply Hnr.
  - right. destruct (fill_enabled_hangups e s Hfe) as (Hfe' & Hd & _).
    split; [exact Hfe'|]. split; [exact Hd|].
    exists r. unfold reads_in. cbn [filter poll_event is_read].
    rewrite Hr. f_equal. apply Hnr.
Qed.

Lemma pump_step_trace info flag e s :
  snd (pump_step info flag e s) =
  if fst (loop_head flag s)
  then snd (loop_body info e (snd (loop_head flag s)))
  else [].
Proof.
  unfold pump_step. destruct (loop_head flag s) as [[|] s1]; cbn [fst snd].
  - destruct (loop_body info e s1) as [[s2| | |] t1]; unfold bind, ret;
      cbn; now rewrite ?app_nil_r.
  - reflexivity.
Qed.

(** C9.  An iteration of a pump reads at most once, and it reads only when
    the source is active ([found_eof] is 0, the pump still going), [poll]
    reported the source readable and the buffer is empty: no byte read
    before is still waiting to be written. *)
Theorem read_only_when_empty info flag e s o tr :
  pump_step info flag e s = (o, tr) ->
  (List.length (reads_in tr) <= 1)%nat /\
  (reads_in tr <> [] ->
   c_true (keep_going s) = true /\ found_eof s = 0 /\
   c_true (Z.land (revents0 e) POLLIN) = true /\
   buffer_length s = 0 /\ pending s = []).
Proof.
  intros Hstep. unfold pump_step in Hstep.
  destruct (loop_head_fields flag s) as (Hb1 & Hl1 & Ho1 & Hf1 & Hk1).
  destruct (loop_head flag s) as [again s1]. cbn [snd] in *.
  destruct again.
  - assert (Htr : tr = snd (loop_body info e s1)).
    { destruct (loop_body info e s1) as [[s2| | |] t1]; unfold bind, ret in Hstep;
        inversion Hstep; subst; cbn; now rewrite ?app_nil_r. }
    subst tr.
    destruct (loop_body_reads info e s1) as [Hn|(Hfe & _ & r & Hr)].
    + rewrite Hn. split; [cbn; lia|]. intros H; now contradiction H.
    + rewrite Hr. split; [cbn; lia|]. intros _.
      unfold fill_enabled in Hfe.
      repeat (apply andb_prop in Hfe; destruct Hfe as [Hfe ?]).
      rewrite Hl1 in *. rewrite Hf1 in *. rewrite Hk1 in Hfe.
      assert (Hl0 : buffer_length s = 0) by lia.
      split.
      { unfold c_true in *. destruct (keep_going s =? 0) eqn:Hk; [|reflexivity].
        apply Z.eqb_eq in Hk. rewrite Hk in Hfe. discriminate. }
      split.
      { unfold c_true in *. destruct (found_eof s =? 0) eqn:Hk; [lia|discriminate]. }
      split; [assumption|]. split; [exact Hl0|now apply pending_empty].
  - inversion Hstep; subst. cbn. split; [lia|]. intros H; now contradiction H.
Qed.

(* ---------------------------------------------------------------- *)




(* ---------------------------------------------------------------- *)

Lemma pump_step_flag info flag e s th flag' t :
  pump_step info flag e s = (Ok (th, flag'), t) ->
  flag' = flag \/
  (c_true (end_all info) = true /\ th = Returned /\ flag' = 1 /\ t = []).
Proof.
  unfold pump_step. destruct (loop_head flag s) as [[|] s1].
  - destruct (loop_body info e s1) as [[s2| | |] t1]; unfold bind, ret;
      intros H; inversion H; auto.
  - unfold ret, loop_exit. intros H. inversion H; subst.
    destruct (c_true (end_all info)); auto.
Qed.

(** C8.  The flag [all_done] is 0 when the threads start.  A step of a
    thread changes it only when the thread leaves its loop with [end_all]
    set, and then to 1: of the two threads of [main] only the writer is
    configured so, and a step of the reader never changes the flag.  Setting
    it again changes nothing, and once 1 it stays 1.  Every evaluation of
    the loop condition reads the flag: when it is set [keep_going] is
    cleared, the pump never reads again, and a pump whose buffer is empty
    returns at once, without any call to the system (a pump that still
    holds unsent bytes stays in its loop to drain them).  The flag does get
    set: a pump whose loop condition is false returns without any call and
    leaves the flag at 1 when [end_all] is set, so the step at which the
    writer leaves its loop sets [all_done] to 1, and from then on the step
    of a reader whose buffer is empty makes it return, with no input or
    output at all. *)
Theorem all_done_discipline fdm :
  (forall stack_r stack_w, all_done (process_start fdm stack_r stack_w) = 0) /\
  (forall t e p p' tr,
     process_step fdm t e p = (Ok p', tr) ->
     all_done p' = all_done p \/
     (t = Writer /\ writer_thread p' = Returned /\ all_done p' = 1)) /\
  (forall e p p' tr,
     process_step fdm Reader e p = (Ok p', tr) -> all_done p' = all_done p) /\
  (forall info flag, loop_exit info (loop_exit info flag) = loop_exit info flag) /\
  (forall t e p p' tr,
     process_step fdm t e p = (Ok p', tr) -> all_done p = 1 -> all_done p' = 1) /\
  (forall info flag e s,
     c_true flag = true ->
     keep_going (snd (loop_head flag s)) = 0 /\
     reads_in (snd (pump_step info flag e s)) = [] /\
     (buffer_length s = 0 ->
      pump_step info flag e s = (Ok (Returned, loop_exit info flag), []))) /\
  (forall info flag e s,
     fst (loop_head flag s) = false ->
     pump_step info flag e s = (Ok (Returned, loop_exit info flag), []) /\
     (c_true (end_all info) = true -> loop_exit info flag = 1)) /\
  (forall e p s,
     writer_thread p = Running s ->
     fst (loop_head (all_done p) s) = false ->
     process_step fdm Writer e p =
       (Ok {| all_done := 1;
              reader_thread := reader_thread p;
              writer_thread := Returned |}, [])) /\
  (forall e p s,
     all_done p = 1 ->
     reader_thread p = Running s -> buffer_length s = 0 ->
     process_step fdm Reader e p =
       (Ok {| all_done := 1;
              reader_thread := Returned;
              writer_thread := writer_thread p |}, [])).
Proof.
  assert (Hexit : forall info flag e s,
            fst (loop_head flag s) = false ->
            pump_step info flag e s = (Ok (Returned, loop_exit info flag), [])).
  { intros info flag e s H. unfold pump_step.
    destruct (loop_head flag s) as [again s1]. cbn in H. now subst again. }
  assert (Hstep : forall t e p p' tr,
            process_step fdm t e p = (Ok p', tr) ->
            all_done p' = all_done p \/
            (c_true (end_all (info_of fdm t)) = true /\
             thread_of p' t = Returned /\ all_done p' = 1)).
  { intros t e p p' tr H. unfold process_step in H.
    destruct (thread_of p t) as [s|] eqn:Hth.
    - destruct (pump_step (info_of fdm t) (all_done p) e s)
        as [[[th flag']| | |] t1] eqn:Hp; unfold bind, ret in H;
        inversion H; subst p' tr; clear H.
      destruct (pump_step_flag _ _ _ _ _ _ _ Hp) as [->|(He & -> & -> & _)].
      + left. destruct t; reflexivity.
      + right. destruct t; cbn; auto.
    - inversion H; subst. now left. }
  split; [reflexivity|].
  split; [|split; [|split; [|split; [|split; [|split; [|split]]]]]].
  6:{ intros info flag e s H. split; [now apply Hexit|].
      intros He. unfold loop_exit. now rewrite He. }
  6:{ intros e p s Hw H. unfold process_step. cbn [thread_of info_of].
      rewrite Hw, (Hexit _ _ e s H). reflexivity. }
  6:{ intros e p s H1 Hr Hl. unfold process_step. cbn [thread_of info_of].
      rewrite Hr, H1.
      assert (Hh : fst (loop_head 1 s) = false).
      { unfold loop_head. cbn. rewrite Z.land_0_r, Hl. reflexivity. }
      rewrite (Hexit _ _ e s Hh). reflexivity. }
  - intros t e p p' tr H.
    destruct (Hstep t e p p' tr H) as [Heq|(He & Hth & H1)]; [now left|].
    destruct t; [discriminate|]. right. auto.
  - intros e p p' tr H.
    destruct (Hstep Reader e p p' tr H) as [Heq|(He & _)];
      [exact Heq|discriminate].
  - intros info flag. unfold loop_exit.
    now destruct (c_true (end_all info)).
  - intros t e p p' tr H H1.
    destruct (Hstep t e p p' tr H) as [Heq|(_ & _ & H')]; congruence.
  - intros info flag e s Hflag.
    assert (Hk : Z.land (keep_going s) (c_not flag) = 0).
    { unfold c_true, c_not in *. destruct (flag =? 0); [discriminate|].
      apply Z.land_0_r. }
    split; [exact Hk|]. split.
    + rewrite pump_step_trace.
      destruct (fst (loop_head flag s)); [|reflexivity].
      destruct (loop_body_reads info e (snd (loop_head flag s)))
        as [Hn|(Hfe & _)]; [exact Hn|].
      unfold fill_enabled in Hfe. cbn [loop_head snd keep_going] in Hfe.
      rewrite Hk in Hfe. discriminate.
    + intros Hl. unfold pump_step, loop_head. rewrite Hk, Hl. reflexivity.
Qed.

(* ---------------------------------------------------------------- *)

(** C4 (amended).  The buffer invariant of the code: offset and length are
    not negative, offset + length is at most the capacity, and the
    [buffer_length] bytes from the offset on are the bytes read and not yet
    written.  It holds when a pump starts, every pass through the loop body
    whose [read] and [write] succeed preserves it, and so it holds in every
    state a pump reaches on such a script; there, for a pump still in its
    loop, the bytes read so far are the bytes written so far followed by
    these pending bytes. *)
Theorem buffer_invariant info :
  0 <= BUFFER_SIZE <= SIZE_MAX ->
  (forall stack, buffer_inv (thread_start info stack)) /\
  (forall e s s' t,
     buffer_inv s -> loop_body info e s = (Ok s', t) -> io_ok t = true ->
     buffer_inv s') /\
  (forall stack script s tr,
     redirection_thread_fn info stack script = (Ok (Running s), tr) ->
     io_ok tr = true ->
     buffer_inv s /\
     (live s = true ->
      bytes_read tr = (bytes_written tr ++ pending s)%list /\
      Z.of_nat (List.length (bytes_read tr))
        - Z.of_nat (List.length (bytes_written tr)) = buffer_length s)).
Proof.
  intros Hcap. split; [|split].
  - intros stack.
    destruct (thread_start_inv info stack (proj1 Hcap))
      as (rel & d & tl & _ & _ & _ & H & _).
    now destruct (H _ eq_refl).
  - intros e s s' t Hinv Hb Hio.
    destruct (loop_body_summary info e s _ t (proj2 Hcap) Hinv Hb Hio)
      as (w & tl & d & _ & _ & _ & H).
    now destruct (H s' eq_refl).
  - intros stack script s tr Hrun Hio.
    unfold redirection_thread_fn in Hrun.
    pose proof (pump_run_inv info script _ [] false _ tr (proj2 Hcap)
                  (thread_start_inv info stack (proj1 Hcap)) Hrun Hio) as Hinv.
    destruct Hinv as (rel & d & tl & Hrd & Hwr & Htl & Hst & _).
    destruct (Hst s eq_refl) as [Hi Hstop]. split; [exact Hi|].
    intros Hlive. cbn [app pend_thread] in Hrd, Hwr.
    assert (Hnil : tl = [] /\ d = []).
    { destruct (nil_or_not tl) as [->|Hn], (nil_or_not d) as [->|Hn'];
        try (split; reflexivity); exfalso;
        (destruct Hstop as [Hk Hl]; [auto|]);
        unfold live in Hlive; rewrite Hk, Hl in Hlive; discriminate. }
    destruct Hnil as [-> ->]. rewrite app_nil_r in *.
    split; [now rewrite Hrd, Hwr|].
    rewrite Hrd, Hwr, length_app, Nat2Z.inj_add.
    destruct Hi as (_ & _ & _ & Hi). lia.
Qed.

(* ---------------------------------------------------------------- *)

(** What a destination hang-up does, whatever else [poll] reports: the
    destination is retired, the buffer is emptied and the next loop
    condition ends the pump.  No write is made in the iteration unless
    [poll] reports the destination writable as well. *)
Lemma dest_hangup_retires info e s :
  0 <= poll_ret e -> dest_hangup_seen e = true ->
  (forall s' t, loop_body info e s = (Ok s', t) ->
     poll_fd1 s' = -1 /\ buffer_length s' = 0 /\ buffer_offset s' = 0 /\
     keep_going s' = 0 /\
     forall flag e', pump_step info flag e' s' =
                     (Ok (Returned, loop_exit info flag), [])) /\
  (dest_writable e = false ->
   snd (loop_body info e s) = [poll_event s e]).
Proof.
  intros Hpoll Hhup.
  destruct (loop_body_cases info e s) as [[Hp _]|[_ Heq]]; [lia|].
  rewrite Heq. clear Heq.
  assert (Hh : poll_fd1 (hangups e s) = -1 /\ buffer_length (hangups e s) = 0
               /\ buffer_offset (hangups e s) = 0
               /\ keep_going (hangups e s) = 0).
  { unfold hangups. rewrite Hhup. cbn. auto. }
  destruct Hh as (H1 & H2 & H3 & H4).
  destruct (transfer_cases info e (hangups e s))
    as [[Hfe Ht]|[Hfe _]].
  2:{ destruct (fill_enabled_hangups e s Hfe) as (_ & Hd & _). congruence. }
  rewrite Ht. clear Ht. split.
  - intros s' t Hb. inversion Hb as [[Ho Htr]]. clear Hb Htr.
    assert (Hs' : poll_fd1 s' = -1 /\ buffer_length s' = 0 /\
                  buffer_offset s' = 0 /\ keep_going s' = 0).
    { destruct (dest_writable e).
      - unfold on_writable in Ho. rewrite H2 in Ho. cbn [Z.ltb Z.compare] in Ho.
        destruct (c_true (found_eof (hangups e s))).
        + destruct (finish info e (hangups e s)) as [o1 t1] eqn:Hf.
          cbn in Ho. subst o1.
          unfold finish, sys_write, sys_fsync, ASSERT_NONNEG, ASSERT_ZERO,
            ASSERT in Hf.
          destruct (wants_eot info e); cbn in Hf;
            destruct (0 <=? write_ret e); cbn in Hf; try discriminate;
            destruct (fsync_ret e =? 0); cbn in Hf; try discriminate;
            inversion Hf; subst s'; cbn; auto.
        + cbn in Ho. inversion Ho; subst s'. auto.
      - cbn in Ho. inversion Ho; subst s'. auto. }
    destruct Hs' as (Ha & Hb & Hc & Hd).
    repeat (split; [assumption|]).
    intros flag e'. unfold pump_step, loop_head. rewrite Hd, Hb. reflexivity.
  - intros Hw. rewrite Hw. reflexivity.
Qed.

(** [read] is never seen to fail: the fill goes on whatever it returns,
    with the returned value, converted to [size_t], as the length. *)
Lemma fill_never_exits e s :
  exists s', fst (fill e s) = Ok s' /\
             buffer_length s' = to_size_t (read_ret e).
Proof.
  destruct (fill_result e s) as (s' & Hf & Hl & _).
  exists s'. rewrite Hf. auto.
Qed.
(* ================================================================== *)
(** ** More about the pump *)

Lemma on_writable_exit info e s st :
  fsync_ret e = 0 -> fst (on_writable info e s) = Exited st ->
  write_ret e < 0 /\ (0 <? buffer_length s) = false /\
  writes_in (snd (on_writable info e s)) = [final_write info e s].
Proof.
  intros Hf. unfold on_writable, final_write, drain, finish,
    sys_write, sys_fsync, ASSERT_NONNEG, ASSERT_ZERO, ASSERT.
  cbn. rewrite to_size_t_nonneg, Hf. cbn.
  destruct (0 <? buffer_length s); [discriminate|].
  destruct (c_true (found_eof s)); [|discriminate].
  destruct (wants_eot info e); cbn;
    destruct (Z.leb_spec 0 (write_ret e)); cbn; try discriminate;
    intros _; auto.
Qed.

Lemma on_writable_drain_ok info e s :
  0 < buffer_length s -> fsync_ret e = 0 ->
  exists s', fst (on_writable info e s) = Ok s'.
Proof.
  intros Hl Hf. unfold on_writable, drain, sys_write, sys_fsync,
    ASSERT_NONNEG, ASSERT_ZERO, ASSERT.
  destruct (Z.ltb_spec 0 (buffer_length s)); [|lia].
  cbn. rewrite to_size_t_nonneg, Hf. cbn. eexists; reflexivity.
Qed.

(** X1.  A pass through the loop body ends the process only through a
    failed [poll], a failed [fsync] or a failed [write] of the end-of-file
    block: when [poll], [write] and [fsync] succeed the pass goes on,
    whatever [read] returns; when a pass with a successful [poll] and
    [fsync] exits, its only [write] is the one of the end-of-file block and
    it failed; and a pass that drains the buffer (bytes were pending, or
    the fill has just read some) goes on whatever that [write] returns.
    When [poll] fails the pass does nothing else: the trace is the call,
    the diagnostic and the exit. *)
Theorem loop_body_fatal_calls info e s :
  (0 <= poll_ret e -> 0 <= write_ret e -> fsync_ret e = 0 ->
   exists s', fst (loop_body info e s) = Ok s') /\
  (poll_ret e < 0 ->
   loop_body info e s = (Exited EXIT_FAILURE, poll_event s e :: perror_exit)) /\
  (forall st, fst (loop_body info e s) = Exited st ->
     st = EXIT_FAILURE /\
     (poll_ret e < 0 \/ write_ret e < 0 \/ fsync_ret e <> 0)) /\
  (forall st, 0 <= poll_ret e -> fsync_ret e = 0 ->
     fst (loop_body info e s) = Exited st ->
     write_ret e < 0 /\
     exists s2, buffer_length s2 <= 0 /\
       writes_in (snd (loop_body info e s)) = [final_write info e s2]) /\
  (0 <= poll_ret e -> fsync_ret e = 0 -> dest_hangup_seen e = false ->
   0 < buffer_length s \/
   (fill_enabled e s = true /\ 0 < to_size_t (read_ret e)) ->
   exists s', fst (loop_body info e s) = Ok s').
Proof.
  assert (Hok : 0 <= poll_ret e -> 0 <= write_ret e -> fsync_ret e = 0 ->
                exists s', fst (loop_body info e s) = Ok s').
  { intros Hp Hw Hf.
    destruct (loop_body_cases info e s) as [[Hn _]|[_ Heq]]; [lia|].
    rewrite Heq. cbn [fst].
    destruct (transfer_cases info e (hangups e s))
      as [[_ Ht]|[_ (s1 & r & _ & _ & Ht)]]; rewrite Ht; cbn [fst].
    - destruct (dest_writable e); [now apply on_writable_ok|].
      eexists; reflexivity.
    - destruct (dest_writable e); [now apply on_writable_ok|].
      eexists; reflexivity. }
  split; [exact Hok|]. split; [|split; [|split]].
  - intros Hp. destruct (loop_body_cases info e s) as [[_ Heq]|[Hn _]];
      [exact Heq|lia].
  - intros st Hst. split; [now apply (ewf_loop_body info e s)|].
    destruct (Z.lt_ge_cases (poll_ret e) 0) as [|Hp]; [now left|].
    destruct (Z.lt_ge_cases (write_ret e) 0) as [|Hw]; [now right; left|].
    destruct (Z.eq_dec (fsync_ret e) 0) as [Hf|Hf]; [|now right; right].
    destruct (Hok Hp Hw Hf) as [s' Hs']. congruence.
  - intros st Hp Hf Hst.
    destruct (loop_body_cases info e s) as [[Hn _]|[_ Heq]]; [lia|].
    rewrite Heq in Hst |- *. cbn [fst snd] in *. clear Heq.
    destruct (transfer_cases info e (hangups e s))
      as [[_ Ht]|[_ (s1 & r & _ & Hr & Ht)]]; rewrite Ht in Hst |- *;
      cbn [fst snd] in *; clear Ht.
    + destruct (dest_writable e); [|discriminate].
      destruct (on_writable_exit info e _ st Hf Hst) as (Hw & Hl & Hwr).
      split; [exact Hw|]. exists (hangups e s).
      split; [now apply Z.ltb_ge|].
      unfold writes_in in *. cbn [filter poll_event is_write]. exact Hwr.
    + destruct (dest_writable e); [|discriminate].
      destruct (on_writable_exit info e _ st Hf Hst) as (Hw & Hl & Hwr).
      split; [exact Hw|]. exists s1.
      split; [now apply Z.ltb_ge|].
      unfold writes_in in *. cbn [filter poll_event is_write].
      destruct r; try discriminate. cbn [is_write]. exact Hwr.
  - intros Hp Hf Hd Hcase.
    destruct (loop_body_cases info e s) as [[Hn _]|[_ Heq]]; [lia|].
    rewrite Heq. cbn [fst]. clear Heq.
    destruct (transfer_cases info e (hangups e s))
      as [[Hfe Ht]|[Hfe (s1 & r & Hfill & _ & Ht)]]; rewrite Ht; cbn [fst];
      clear Ht.
    + destruct (dest_writable e); [|eexists; reflexivity].
      apply on_writable_drain_ok; [|exact Hf].
      assert (Hl : buffer_length (hangups e s) = buffer_length s).
      { unfold hangups. rewrite Hd. now destruct (source_hangup_seen e). }
      rewrite Hl. destruct Hcase as [H|[Hen Hr]]; [exact H|].
      exfalso. unfold hangups in Hfe. rewrite Hd in Hfe.
      destruct (source_hangup_seen e) eqn:Hs; [|congruence].
      unfold fill_enabled, source_hangup_seen in *.
      apply andb_prop in Hs. destruct Hs as [_ Hs].
      apply negb_true_iff in Hs. rewrite Hs, andb_false_r in Hen.
      discriminate.
    + destruct (dest_writable e); [|eexists; reflexivity].
      apply on_writable_drain_ok; [|exact Hf].
      destruct (fill_result e (hangups e s)) as (s1' & Hf' & Hl & _).
      rewrite Hfill in Hf'. inversion Hf'; subst s1'. rewrite Hl.
      destruct Hcase as [H|[_ Hr]]; [|exact Hr].
      exfalso. destruct (fill_enabled_hangups e s Hfe) as (Hen & _).
      unfold fill_enabled in Hen.
      apply andb_prop in Hen. destruct Hen as [_ Hen]. lia.
Qed.


(** X2.  A hang-up on the source does not end the input while [poll]
    still reports data to read: with POLLIN set, a pass that goes on leaves
    [found_eof] and the source descriptor as they were, unless the fill ran
    and [read] returned 0. *)
Theorem readable_source_is_not_eof info e s s' t :
  c_true (Z.land (revents0 e) POLLIN) = true ->
  loop_body info e s = (Ok s', t) ->
  (found_eof s' = found_eof s /\ poll_fd0 s' = poll_fd0 s) \/
  (fill_enabled e s = true /\ to_size_t (read_ret e) = 0 /\
   found_eof s' = 1 /\ poll_fd0 s' = -1).
Proof.
  intros Hin Hb.
  assert (Hs : source_hangup_seen e = false).
  { unfold source_hangup_seen. rewrite Hin. apply andb_false_r. }
  destruct (loop_body_cases info e s) as [[_ Heq]|[_ Heq]];
    rewrite Heq in Hb; [discriminate|].
  inversion Hb as [[Ho Ht]]. clear Hb Heq Ht.
  assert (Hh : found_eof (hangups e s) = found_eof s /\
               poll_fd0 (hangups e s) = poll_fd0 s).
  { unfold hangups. rewrite Hs. destruct (dest_hangup_seen e); cbn; auto. }
  destruct Hh as [Hh1 Hh2].
  assert (Hwr : forall s1,
            fst (if dest_writable e then on_writable info e s1 else ret s1)
              = Ok s' ->
            found_eof s' = found_eof s1 /\ poll_fd0 s' = poll_fd0 s1).
  { intros s1 H. destruct (dest_writable e).
    - destruct (on_writable info e s1) as [o1 t1] eqn:Hw. cbn in H. subst o1.
      destruct (on_writable_source info e s1 s' t1 Hw) as (-> & -> & _).
      now split.
    - cbn in H. inversion H. now split. }
  destruct (transfer_cases info e (hangups e s))
    as [[_ Ht]|[Hfe (s1 & r & Hf & _ & Ht)]]; rewrite Ht in Ho; cbn [fst] in Ho.
  - left. destruct (Hwr _ Ho) as [-> ->]. now split.
  - destruct (fill_enabled_hangups e s Hfe) as (Hfe' & _ & _ & Hhs).
    destruct (fill_result e (hangups e s)) as (s1' & Hf' & _ & _ & _ & _ & Hz).
    rewrite Hf in Hf'. inversion Hf'; subst s1'. clear Hf'.
    destruct (Hwr _ Ho) as [-> ->].
    destruct (Z.eqb_spec (to_size_t (read_ret e)) 0) as [Hz0|Hz0].
    + right. destruct Hz as [-> ->]. auto.
    + left. destruct Hz as [-> ->]. now split.
Qed.

(** X3.  Partial writes resume where they stopped: after two drains in a
    row whose calls succeed, what the destination accepted in the two
    calls, followed by what is still pending, is what was pending before,
    and the second [write] was offered exactly what the first one left. *)
Theorem drain_resumes e1 e2 s s1 s2 t1 t2 :
  BUFFER_SIZE <= SIZE_MAX -> buffer_inv s ->
  drain e1 s = (Ok s1, t1) -> io_ok t1 = true ->
  drain e2 s1 = (Ok s2, t2) -> io_ok t2 = true ->
  pending s = (bytes_written (t1 ++ t2) ++ pending s2)%list /\
  pending s = (bytes_written t1 ++ pending s1)%list /\
  writes_in t2 = [EvWrite (poll_fd1 s) (pending s1) (buffer_length s1)
                    (write_ret e2)] /\
  buffer_length s2 = buffer_length s - write_ret e1 - write_ret e2.
Proof.
  intros Hcap Hinv Hd1 Hio1 Hd2 Hio2.
  destruct (drain_summary e1 s _ t1 Hcap Hinv Hd1 Hio1) as (_ & d1 & Hp1 & Hok1).
  destruct (Hok1 s1 eq_refl) as (-> & Hinv1 & _).
  destruct (drain_summary e2 s1 _ t2 Hcap Hinv1 Hd2 Hio2) as (_ & d2 & Hp2 & Hok2).
  destruct (Hok2 s2 eq_refl) as (-> & Hinv2 & _).
  cbn [pend_state] in Hp1, Hp2. rewrite app_nil_r in Hp1, Hp2.
  rewrite bytes_written_app, <- app_assoc, <- Hp2.
  split; [exact Hp1|]. split; [exact Hp1|].
  unfold drain, sys_write, sys_fsync, ASSERT_NONNEG, ASSERT_ZERO, ASSERT
    in Hd1, Hd2.
  cbn in Hd1, Hd2. rewrite to_size_t_nonneg in Hd1, Hd2. cbn in Hd1, Hd2.
  destruct (fsync_ret e1 =? 0); [|discriminate].
  destruct (fsync_ret e2 =? 0); [|discriminate].
  inversion Hd1; subst s1 t1. clear Hd1.
  cbn in Hd2. inversion Hd2; subst s2 t2. clear Hd2.
  cbn in Hio1, Hio2 |- *.
  destruct Hinv as (? & ? & ? & ?).
  split; [reflexivity|].
  rewrite (to_size_t_id (write_ret e1)) in * by lia.
  rewrite (to_size_t_id (buffer_length s - write_ret e1)) in * by lia.
  rewrite (to_size_t_id (write_ret e2)) by lia.
  rewrite to_size_t_id by lia. reflexivity.
Qed.

(** X14.  The pump towards the standard output appends nothing: on any
    script whose calls succeed, what the writer of [main] has written is an
    initial part of what it has read from the master, with no
    end-of-transmission byte after it. *)
Theorem writer_appends_nothing fdm stack script o tr :
  0 <= BUFFER_SIZE <= SIZE_MAX ->
  redirection_thread_fn (writer_info fdm) stack script = (o, tr) ->
  io_ok tr = true ->
  exists rest, bytes_read tr = (bytes_written tr ++ rest)%list.
Proof.
  intros Hcap Hrun Hio. unfold redirection_thread_fn in Hrun.
  pose proof (pump_run_inv (writer_info fdm) script _ [] false o tr
                (proj2 Hcap)
                (thread_start_inv (writer_info fdm) stack (proj1 Hcap))
                Hrun Hio) as Hinv.
  destruct Hinv as (rel & d & tl & Hrd & Hwr & Htl & _).
  destruct Htl as [->|[_ Hs]]; [|discriminate].
  exists (pend_thread o ++ d)%list.
  cbn [app] in Hrd, Hwr. now rewrite Hwr, app_nil_r.
Qed.

(* ---------------------------------------------------------------- *)

Lemma fds_ok_app info t1 t2 :
  fds_ok info (t1 ++ t2) = fds_ok info t1 && fds_ok info t2.
Proof. apply forallb_app. Qed.

Lemma loop_head_fd_inv info flag s :
  fd_inv info s -> fd_inv info (snd (loop_head flag s)).
Proof.
  intros (H0 & H1 & Hk). unfold fd_inv, loop_head. cbn.
  split; [exact H0|]. split.
  - destruct H1 as [H1|(H1 & Hk0 & Hl)]; [now left|right].
    rewrite Hk0. auto.
  - unfold c_not. destruct Hk as [->| ->]; destruct (flag =? 0); auto.
Qed.

Lemma hangups_fd_inv info e s :
  fd_inv info s -> fd_inv info (hangups e s).
Proof.
  intros (H0 & H1 & Hk). unfold fd_inv, hangups.
  destruct (source_hangup_seen e), (dest_hangup_seen e); cbn; auto 10.
Qed.

Lemma on_writable_fds info e s :
  fd_inv info s ->
  fds_ok info (snd (on_writable info e s)) = true /\
  forall s', fst (on_writable info e s) = Ok s' -> fd_inv info s'.
Proof.
  intros (H0 & H1 & Hk).
  assert (Hw1 : forall data c r,
            c <= 1 ->
            event_fds_ok info (EvWrite (poll_fd1 s) data c r) = true).
  { intros data c r Hc. cbn. destruct H1 as [->|(-> & _)].
    - now rewrite Z.eqb_refl.
    - destruct (Z.leb_spec c 1); [|lia]. cbn. apply orb_true_r. }
  assert (Hf : forall r, event_fds_ok info (EvFsync (poll_fd1 s) r) = true).
  { intros r. cbn. destruct H1 as [->|(-> & _)].
    - now rewrite Z.eqb_refl.
    - apply orb_true_r. }
  unfold on_writable, drain, finish, sys_write, sys_fsync,
    ASSERT_NONNEG, ASSERT_ZERO, ASSERT, fds_ok.
  cbn. rewrite to_size_t_nonneg. cbn.
  destruct (Z.ltb_spec 0 (buffer_length s)) as [Hl|Hl].
  - assert (H1' : poll_fd1 s = out_fd info).
    { destruct H1 as [H1|(_ & _ & H1)]; [exact H1|lia]. }
    assert (Hev : forall data c r,
              event_fds_ok info (EvWrite (poll_fd1 s) data c r) = true).
    { intros. cbn. now rewrite H1', Z.eqb_refl. }
    destruct (fsync_ret e =? 0); cbn -[event_fds_ok];
      rewrite Hev, Hf; (split; [reflexivity|]); intros s' Hs';
      inversion Hs'; subst s'.
    unfold fd_inv. cbn. auto.
  - destruct (c_true (found_eof s)).
    + assert (Hl0 : buffer_length s = 0 \/ poll_fd1 s = out_fd info).
      { destruct H1 as [H1|(_ & _ & H1)]; auto. }
      destruct (wants_eot info e); cbn -[event_fds_ok];
        destruct (0 <=? write_ret e); cbn -[event_fds_ok];
        try destruct (fsync_ret e =? 0); cbn -[event_fds_ok];
        rewrite ?Hw1, ?Hf by lia; (split; [reflexivity|]);
        intros s' Hs'; inversion Hs'; subst s'.
      all: unfold fd_inv; cbn.
      all: split; [exact H0|].
      all: split; [|now left].
      all: destruct H1 as [H1|(H1 & _ & Hl1)]; [now left|right; auto].
    + cbn. split; [reflexivity|]. intros s' Hs'. inversion Hs'; subst s'.
      unfold fd_inv. auto.
Qed.

Lemma transfer_fds info e s :
  fd_inv info s ->
  fds_ok info (snd (transfer info e s)) = true /\
  forall s', fst (transfer info e s) = Ok s' -> fd_inv info s'.
Proof.
  intros Hinv.
  assert (Hwr : forall s1, fd_inv info s1 ->
            fds_ok info (snd (if dest_writable e then on_writable info e s1
                              else ret s1)) = true /\
            forall s', fst (if dest_writable e then on_writable info e s1
                            else ret s1) = Ok s' -> fd_inv info s').
  { intros s1 H1. destruct (dest_writable e).
    - now apply on_writable_fds.
    - cbn. split; [reflexivity|]. intros s' Hs'. now inversion Hs'; subst. }
  destruct (transfer_cases info e s)
    as [[_ Ht]|[Hfe (s1 & r & Hf & _ & Ht)]]; rewrite Ht; cbn [fst snd].
  - now apply Hwr.
  - destruct (fill_result e s) as (s1' & Hf' & _ & _ & Hk1 & Hfd1 & Hz).
    rewrite Hf in Hf'. inversion Hf' as [[Hs1 Hr]]. subst s1'. clear Hf'.
    destruct Hinv as (H0 & H1 & Hk).
    unfold fill_enabled, c_true in Hfe.
    repeat (apply andb_prop in Hfe; destruct Hfe as [Hfe ?]).
    assert (He0 : found_eof s = 0) by lia.
    assert (Hkn : keep_going s <> 0) by lia.
    assert (Hin : poll_fd0 s = in_fd info).
    { destruct H0 as [[_ H0]|[H0 _]]; [exact H0|lia]. }
    assert (Hout : poll_fd1 s = out_fd info).
    { destruct H1 as [H1|(_ & H1 & _)]; [exact H1|contradiction]. }
    assert (Hinv1 : fd_inv info s1).
    { unfold fd_inv. rewrite Hk1, Hfd1. split; [|auto].
      destruct (to_size_t (read_ret e) =? 0); destruct Hz as [-> ->]; auto. }
    destruct (Hwr s1 Hinv1) as [He Hs]. split; [|exact Hs].
    change (fds_ok info (?x :: ?l))
      with (event_fds_ok info x && fds_ok info l).
    rewrite He. cbn. rewrite Hin, Z.eqb_refl. reflexivity.
Qed.

Lemma pump_step_fds info flag e s o t :
  fd_inv info s -> pump_step info flag e s = (o, t) ->
  fds_ok info t = true /\
  forall s' f, o = Ok (Running s', f) -> fd_inv info s'.
Proof.
  intros Hinv Hstep.
  pose proof (loop_head_fd_inv info flag s Hinv) as Hinv1.
  pose proof (pump_step_trace info flag e s) as Htr.
  rewrite Hstep in Htr. cbn [snd] in Htr.
  unfold pump_step in Hstep.
  destruct (loop_head flag s) as [again s1] eqn:Hhead. cbn [fst snd] in *.
  destruct again.
  - assert (Hout : poll_fd1 s1 = out_fd info).
    { destruct Hinv1 as (_ & [H1|(_ & Hk & Hl)] & _); [exact H1|].
      unfold loop_head in Hhead. inversion Hhead as [[Ha Hs1]].
      rewrite <- Hs1 in Hk, Hl. cbn in Hk, Hl.
      rewrite Hk, Hl in Ha. discriminate. }
    pose proof (hangups_fd_inv info e s1 Hinv1) as Hinv2.
    destruct (transfer_fds info e (hangups e s1) Hinv2) as [Hev Hst].
    destruct (loop_body_cases info e s1) as [[_ Heq]|[_ Heq]];
      rewrite Heq in Hstep, Htr; cbn [snd] in Htr; subst t.
    + split.
      * cbn. rewrite Hout, Z.eqb_refl.
        destruct Hinv1 as ([[_ ->]|[_ ->]] & _); rewrite ?Z.eqb_refl;
          cbn; rewrite ?orb_true_r; reflexivity.
      * intros s' f Ho. subst o. unfold bind in Hstep. cbn in Hstep.
        inversion Hstep.
    + split.
      * change (fds_ok info (?x :: ?l))
          with (event_fds_ok info x && fds_ok info l).
        rewrite Hev. cbn. rewrite Hout, Z.eqb_refl.
        destruct Hinv1 as ([[_ ->]|[_ ->]] & _); rewrite ?Z.eqb_refl;
          cbn; rewrite ?orb_true_r; reflexivity.
      * intros s' f Ho. apply Hst. subst o.
        destruct (fst (transfer info e (hangups e s1))) as [s2| | |];
          unfold bind, ret in Hstep; cbn in Hstep; inversion Hstep.
        reflexivity.
  - inversion Hstep; subst o t. split; [reflexivity|].
    intros s' f Ho. inversion Ho.
Qed.

Lemma pump_run_fds info script : forall th o t,
  (forall s, th = Running s -> fd_inv info s) ->
  pump_run info script th = (o, t) ->
  fds_ok info t = true /\
  forall s', o = Ok (Running s') -> fd_inv info s'.
Proof.
  induction script as [|[flag e] script IH]; intros th o t Hinv Hrun.
  - destruct th; inversion Hrun; subst; (split; [reflexivity|]);
      intros s' Hs'; inversion Hs'; subst; auto. 
  - destruct th as [s|].
    + cbn [pump_run] in Hrun.
      destruct (pump_step info flag e s) as [o1 t1] eqn:Hstep.
      destruct (pump_step_fds info flag e s o1 t1 (Hinv s eq_refl) Hstep)
        as [Hev Hst].
      unfold bind in Hrun. destruct o1 as [[th1 f1]| | |];
        try (inversion Hrun; subst o t; split; [exact Hev|];
             intros s' Hs'; discriminate).
      cbn [fst] in Hrun.
      destruct (pump_run info script th1) as [o2 t2] eqn:Hrun2.
      inversion Hrun; subst o t. clear Hrun.
      assert (Hinv1 : forall s1, th1 = Running s1 -> fd_inv info s1).
      { intros s1 ->. now apply (Hst s1 f1). }
      destruct (IH th1 o2 t2 Hinv1 Hrun2) as [Hev2 Hst2].
      rewrite fds_ok_app, Hev, Hev2. auto.
    + inversion Hrun; subst. split; [reflexivity|]. intros s' Hs'; discriminate.
Qed.

(** X4.  In every state a pump reaches, whatever the system answers:
    [keep_going] is 0 or 1; the source descriptor is the one of the pump as
    long as [found_eof] is 0 and is -1 once it is 1, no other case; the
    destination descriptor is the one of the pump, or -1 in a pump that has
    stopped with an empty buffer. *)
Theorem pump_descriptors info stack script s tr :
  redirection_thread_fn info stack script = (Ok (Running s), tr) ->
  fd_inv info s.
Proof.
  intros Hrun. unfold redirection_thread_fn in Hrun.
  refine (proj2 (pump_run_fds info script _ _ _ _ Hrun) s eq_refl).
  intros s0 Hs0. inversion Hs0; subst s0.
  unfold fd_inv, thread_start. cbn. auto.
Qed.

(** X5.  A pump keeps to its own descriptors, whatever the system answers:
    every [read] is on its source; every [poll] watches its destination
    and its source (or -1 for a retired source); every [write] is on its
    destination, except that a [write] of at most one byte (the one of the
    end-of-file block) can be on -1. *)
Theorem pump_uses_own_descriptors info stack script o tr ev :
  redirection_thread_fn info stack script = (o, tr) ->
  In ev tr -> event_fds_ok info ev = true.
Proof.
  intros Hrun Hin. unfold redirection_thread_fn in Hrun.
  assert (Hev : fds_ok info tr = true).
  { refine (proj1 (pump_run_fds info script _ _ _ _ Hrun)).
    intros s0 Hs0. inversion Hs0; subst s0.
    unfold fd_inv, thread_start. cbn. auto. }
  unfold fds_ok in Hev. rewrite forallb_forall in Hev. now apply Hev.
Qed.

(* ================================================================== *)
(** ** More about the two threads and the flag *)

Lemma pump_step_result info flag e s th f t :
  pump_step info flag e s = (Ok (th, f), t) ->
  (exists s', th = Running s' /\ f = flag) \/
  (th = Returned /\ f = loop_exit info flag /\ t = []).
Proof.
  unfold pump_step. destruct (loop_head flag s) as [[|] s1].
  - destruct (loop_body info e s1) as [[s2| | |] t1]; unfold bind, ret;
      intros H; inversion H. left. eauto.
  - unfold ret. intros H. inversion H. right. auto.
Qed.

Lemma process_step_flag_inv fdm t e p p' tr :
  flag_inv p -> process_step fdm t e p = (Ok p', tr) -> flag_inv p'.
Proof.
  intros Hinv H. unfold process_step in H.
  destruct (thread_of p t) as [s|] eqn:Hth.
  2:{ inversion H; subst. exact Hinv. }
  destruct (pump_step (info_of fdm t) (all_done p) e s)
    as [[[th f]| | |] t1] eqn:Hp; unfold bind, ret in H;
    inversion H; subst p' tr; clear H.
  destruct (pump_step_result _ _ _ _ _ _ _ Hp)
    as [(s' & -> & ->)|(-> & -> & _)]; destruct t; cbn in *.
  - unfold flag_inv in *. cbn. exact Hinv.
  - unfold flag_inv in *. cbn.
    destruct Hinv as [[H0 _]|[_ H1]]; [|congruence].
    left. split; [exact H0|discriminate].
  - unfold flag_inv in *. cbn. exact Hinv.
  - unfold flag_inv. cbn. right. auto.
Qed.

Lemma process_run_flag_inv fdm sched : forall p p' tr,
  flag_inv p -> process_run fdm sched p = (Ok p', tr) -> flag_inv p'.
Proof.
  induction sched as [|[t e] sched IH]; intros p p' tr Hinv H.
  - inversion H; subst. exact Hinv.
  - cbn [process_run] in H.
    destruct (process_step fdm t e p) as [[p1| | |] t1] eqn:Hs;
      unfold bind in H; try discriminate.
    destruct (process_run fdm sched p1) as [o2 t2] eqn:Hr.
    inversion H; subst o2 tr.
    eapply IH; [|exact Hr]. eapply process_step_flag_inv; eauto.
Qed.

Lemma process_start_flag_inv fdm stack_r stack_w sched p tr :
  process_run fdm sched (process_start fdm stack_r stack_w) = (Ok p, tr) ->
  flag_inv p.
Proof.
  intros H. eapply (process_run_flag_inv fdm sched _ p tr); [|exact H].
  left. cbn. split; [reflexivity|discriminate].
Qed.

(** X6.  Whatever the schedule and the answers of the system, in every
    state the two threads reach together the flag [all_done] is 1 exactly
    when the writer has left its loop, and 0 otherwise. *)
Theorem flag_tells_writer_returned fdm stack_r stack_w sched p tr :
  process_run fdm sched (process_start fdm stack_r stack_w) = (Ok p, tr) ->
  (all_done p = 0 /\ writer_thread p <> Returned) \/
  (all_done p = 1 /\ writer_thread p = Returned).
Proof.
  intros H. exact (process_start_flag_inv _ _ _ _ _ _ H).
Qed.

Lemma pump_step_flag_set info flag e s :
  c_true flag = true -> buffer_length s = 0 ->
  pump_step info flag e s = (Ok (Returned, loop_exit info flag), []).
Proof.
  intros Hflag Hl.
  assert (Hk : Z.land (keep_going s) (c_not flag) = 0).
  { unfold c_true, c_not in *. destruct (flag =? 0); [discriminate|].
    apply Z.land_0_r. }
  unfold pump_step, loop_head. rewrite Hk, Hl. reflexivity.
Qed.

(** X7.  No deadlock on an idle session: in any state the two threads
    reach, once the writer has returned, a reader whose buffer is empty
    returns at its next step without any call to the system, whatever
    [poll] would have reported, and both joins succeed. *)
Theorem idle_reader_ends_session fdm stack_r stack_w sched p tr s e :
  process_run fdm sched (process_start fdm stack_r stack_w) = (Ok p, tr) ->
  writer_thread p = Returned ->
  reader_thread p = Running s -> buffer_length s = 0 ->
  exists p',
    process_step fdm Reader e p = (Ok p', []) /\
    reader_thread p' = Returned /\ writer_thread p' = Returned /\
    pthread_join_both p' = ret tt.
Proof.
  intros Hrun Hw Hr Hl.
  destruct (process_start_flag_inv fdm stack_r stack_w sched p tr Hrun)
    as [[_ Hn]|[H1 _]]; [contradiction|].
  unfold process_step. cbn [thread_of]. rewrite Hr.
  rewrite (pump_step_flag_set _ _ e s) by (rewrite ?H1; auto).
  eexists. split; [reflexivity|]. cbn.
  split; [reflexivity|]. split; [exact Hw|].
  unfold pthread_join_both. cbn. now rewrite Hw.
Qed.

(* ================================================================== *)
(** ** More about main *)

Lemma fst_bind {A B} (m : M A) (f : A -> M B) :
  fst (x <- m ;; f x) =
  match fst m with
  | Ok a => fst (f a)
  | Exited st => Exited st
  | Replaced => Replaced
  | Blocked => Blocked
  end.
Proof.
  unfold bind. destruct m as [[a|st| |] t]; cbn; try reflexivity.
  now destruct (f a).
Qed.

Ltac fst_step :=
  rewrite fst_bind;
  rewrite ?fst_sys, ?fst_ASSERT_WITH_MESSAGE;
  unfold ASSERT_NONNEG, ASSERT_ZERO; rewrite ?fst_ASSERT.

(** Up to [fork], [main] goes on exactly when the setup succeeds. *)
Lemma main_after_fork argc e :
  fst (main argc e) =
  if setup_ok argc e
  then if fork_ret e =? 0
       then fst (main_child e EXIT_FAILURE)
       else fst (main_parent e (posix_openpt_ret e) EXIT_FAILURE)
  else Exited EXIT_FAILURE.
Proof.
  unfold main, setup_ok.
  fst_step. destruct (1 <? argc); [|reflexivity].
  do 2 fst_step. destruct (0 <=? posix_openpt_ret e); [|reflexivity].
  do 2 fst_step. destruct (grantpt_ret e =? 0); [|reflexivity].
  do 2 fst_step. destruct (unlockpt_ret e =? 0); [|reflexivity].
  do 2 fst_step. destruct (0 <=? open_ret e); [|reflexivity].
  do 2 fst_step. destruct (0 <=? fork_ret e); [|reflexivity].
  cbn. now destruct (fork_ret e =? 0).
Qed.



(** The child, call by call. *)
Lemma main_child_fst e x :
  fst (main_child e x) =
  if child_ok e
  then match execvp_ret e with
       | None => Replaced
       | Some r => if r =? 0 then Ok x else Exited EXIT_FAILURE
       end
  else Exited EXIT_FAILURE.
Proof.
  assert (Hrest : forall b : bool,
    fst (r <- sys "tcgetattr" (tcgetattr_ret e) ;; ASSERT_ZERO r ;;
         r <- sys "tcsetattr" (tcsetattr_ret e) ;; ASSERT_ZERO r ;;
         r <- sys "setsid" (setsid_ret e) ;; ASSERT_NONNEG r ;;
         r <- sys "dup2 STDIN_FILENO" (dup2_stdin_ret e) ;; ASSERT_NONNEG r ;;
         r <- sys "dup2 STDOUT_FILENO" (dup2_stdout_ret e) ;; ASSERT_NONNEG r ;;
         r <- sys "dup2 STDERR_FILENO" (dup2_stderr_ret e) ;; ASSERT_NONNEG r ;;
         r <- sys "close fdm" (child_close_fdm_ret e) ;; ASSERT_ZERO r ;;
         r <- sys "close fds" (child_close_fds_ret e) ;; ASSERT_ZERO r ;;
         r <- sys "ioctl TIOCSCTTY" (ioctl_tiocsctty_ret e) ;; ASSERT_NONNEG r ;;
         match execvp_ret e with
         | None => (Replaced, [])
         | Some r => r <- sys "execvp" r ;; ASSERT_ZERO r ;; ret x
         end) =
    if true
       && (tcgetattr_ret e =? 0) && (tcsetattr_ret e =? 0)
       && (0 <=? setsid_ret e)
       && (0 <=? dup2_stdin_ret e) && (0 <=? dup2_stdout_ret e)
       && (0 <=? dup2_stderr_ret e)
       && (child_close_fdm_ret e =? 0) && (child_close_fds_ret e =? 0)
       && (0 <=? ioctl_tiocsctty_ret e)
    then match execvp_ret e with
         | None => Replaced
         | Some r => if r =? 0 then Ok x else Exited EXIT_FAILURE
         end
    else Exited EXIT_FAILURE).
  { intros _. cbn [andb].
    do 2 fst_step. destruct (tcgetattr_ret e =? 0); [|reflexivity].
    do 2 fst_step. destruct (tcsetattr_ret e =? 0); [|reflexivity].
    do 2 fst_step. destruct (0 <=? setsid_ret e); [|reflexivity].
    do 2 fst_step. destruct (0 <=? dup2_stdin_ret e); [|reflexivity].
    do 2 fst_step. destruct (0 <=? dup2_stdout_ret e); [|reflexivity].
    do 2 fst_step. destruct (0 <=? dup2_stderr_ret e); [|reflexivity].
    do 2 fst_step. destruct (child_close_fdm_ret e =? 0); [|reflexivity].
    do 2 fst_step. destruct (child_close_fds_ret e =? 0); [|reflexivity].
    do 2 fst_step. destruct (0 <=? ioctl_tiocsctty_ret e); [|reflexivity].
    cbn [andb]. destruct (execvp_ret e) as [r|]; [|reflexivity].
    do 2 fst_step. now destruct (r =? 0). }
  unfold main_child, child_ok.
  rewrite fst_bind.
  destruct (c_true (isastream_fds_ret e)).
  - do 2 fst_step. destruct (0 <=? ioctl_ptem_ret e); [|reflexivity].
    fst_step. destruct (0 <=? ioctl_ldterm_ret e); [|reflexivity].
    cbn [fst ret]. apply (Hrest true).
  - cbn [fst ret]. apply (Hrest true).
Qed.

(** X9.  In the child, the command is started exactly when every call
    before [execvp] succeeds and [execvp] does not return; in every other
    case the child ends with [EXIT_FAILURE]. *)
Theorem child_starts_command argc e :
  setup_ok argc e = true -> fork_ret e = 0 ->
  (fst (main argc e) = Replaced <->
   child_ok e = true /\ execvp_ret e = None) /\
  (fst (main argc e) = Replaced \/
   exit_status (main argc e) = Some EXIT_FAILURE).
Proof.
  intros Hs Hf.
  unfold exit_status. rewrite main_after_fork, Hs, Hf. cbn [Z.eqb].
  rewrite main_child_fst.
  destruct (child_ok e).
  - destruct (execvp_ret e) as [r|].
    + destruct (r =? 0); (split; [split; [discriminate|intros [_ ?]; discriminate]|now right]).
    + split; [split; auto|now left].
  - split; [split; [discriminate|intros [? _]; discriminate]|now right].
Qed.

(* ---------------------------------------------------------------- *)

Lemma ewd_ret {A} (a : A) : exits_with_diagnostic (ret a).
Proof. intros st H. discriminate. Qed.

Lemma ewd_emit ev : exits_with_diagnostic (emit ev).
Proof. intros st H. discriminate. Qed.

Lemma ewd_ASSERT b : exits_with_diagnostic (ASSERT b).
Proof.
  intros st H. destruct b; [discriminate|].
  exists [], EvPerror. split; [reflexivity|now left].
Qed.

Lemma ewd_ASSERT_WITH_MESSAGE b msg :
  exits_with_diagnostic (ASSERT_WITH_MESSAGE b msg).
Proof.
  intros st H. destruct b; [discriminate|].
  exists [], (EvStderr (msg ++ newline)%string).
  split; [reflexivity|right; eauto].
Qed.

Lemma ewd_bind {A B} (m : M A) (f : A -> M B) :
  exits_with_diagnostic m -> (forall a, exits_with_diagnostic (f a)) ->
  exits_with_diagnostic (x <- m ;; f x).
Proof.
  intros Hm Hf st H. unfold bind in *.
  destruct m as [[a|st'| |] t]; cbn in H; try discriminate.
  - specialize (Hf a st). destruct (f a) as [o t']. cbn in *.
    destruct (Hf H) as (pre & d & -> & Hd).
    exists (t ++ pre)%list, d. rewrite app_assoc. auto.
  - apply (Hm st'). reflexivity.
Qed.

Ltac ewd :=
  repeat first
    [ apply ewd_ret | apply ewd_emit | apply ewd_ASSERT
    | apply ewd_ASSERT_WITH_MESSAGE
    | apply ewd_bind; [|intros ?]
    | match goal with
      | |- exits_with_diagnostic (if ?c then _ else _) => destruct c
      end ].

Lemma ewd_loop_body info e s : exits_with_diagnostic (loop_body info e s).
Proof.
  unfold loop_body, transfer, on_writable, fill, drain, finish,
    sys_poll, sys_read, sys_write, sys_fsync, ASSERT_NONNEG, ASSERT_ZERO.
  ewd.
Qed.

Lemma ewd_pump_step info flag e s :
  exits_with_diagnostic (pump_step info flag e s).
Proof.
  unfold pump_step. destruct (loop_head flag s) as [[|] s1].
  - apply ewd_bind; [apply ewd_loop_body | intros; apply ewd_ret].
  - apply ewd_ret.
Qed.

Lemma ewd_pump_run info script : forall th,
  exits_with_diagnostic (pump_run info script th).
Proof.
  induction script as [|[flag e] script IH]; intros th.
  - destruct th; apply ewd_ret.
  - destruct th as [s|]; [|apply ewd_ret]. cbn [pump_run].
    apply ewd_bind; [apply ewd_pump_step | intros; apply IH].
Qed.

Lemma ewf_pump_run info script : forall th,
  exits_with_failure (pump_run info script th).
Proof.
  induction script as [|[flag e] script IH]; intros th.
  - destruct th; apply ewf_ret.
  - destruct th as [s|]; [|apply ewf_ret]. cbn [pump_run].
    apply ewf_bind; [apply ewf_pump_step | intros; apply IH].
Qed.

Lemma ewd_process_run fdm sched : forall p,
  exits_with_diagnostic (process_run fdm sched p).
Proof.
  induction sched as [|[t e] sched IH]; intros p; cbn [process_run].
  - apply ewd_ret.
  - apply ewd_bind; [|intros; apply IH].
    unfold process_step. destruct (thread_of p t); [|apply ewd_ret].
    apply ewd_bind; [apply ewd_pump_step | intros; apply ewd_ret].
Qed.

Lemma ewd_main argc e : exits_with_diagnostic (main argc e).
Proof.
  unfold main, main_child, main_parent, sys, ASSERT_NONNEG, ASSERT_ZERO.
  ewd.
  - destruct (execvp_ret e); ewd. intros st H. discriminate.
  - apply ewd_process_run.
  - unfold pthread_join_both.
    match goal with
    | |- context [reader_thread ?p] =>
        destruct (reader_thread p), (writer_thread p)
    end; intros st H; discriminate.
Qed.

(** X10.  Whenever the program ends through [exit], in [main], in the
    child before [execvp] or in a pump, the status is [EXIT_FAILURE] and
    the last three things in the trace are the program name and a message
    on the standard error (the one of [perror], or the text given to the
    assertion) and the [exit] itself: no exit is silent and nothing follows
    it. *)
Theorem exit_is_never_silent :
  (forall argc e st,
     fst (main argc e) = Exited st ->
     st = EXIT_FAILURE /\ ends_with_diagnostic (snd (main argc e))) /\
  (forall info stack script st,
     fst (redirection_thread_fn info stack script) = Exited st ->
     st = EXIT_FAILURE /\
     ends_with_diagnostic (snd (redirection_thread_fn info stack script))).
Proof.
  split.
  - intros argc e st H. split.
    + now apply (ewf_main argc e).
    + now apply (ewd_main argc e st).
  - intros info stack script st H. unfold redirection_thread_fn in *. split.
    + exact (ewf_pump_run info script _ st H).
    + exact (ewd_pump_run info script _ st H).
Qed.

(* ================================================================== *)
(** ** What a pump never undoes, and how a session ends *)

Lemma on_writable_keep_going info e s s' t :
  on_writable info e s = (Ok s', t) ->
  keep_going s' = keep_going s \/ keep_going s' = 0.
Proof.
  unfold on_writable, drain, finish, sys_write, sys_fsync,
    ASSERT_NONNEG, ASSERT_ZERO, ASSERT.
  cbn. rewrite to_size_t_nonneg. cbn.
  destruct (0 <? buffer_length s); [|destruct (c_true (found_eof s));
    [destruct (wants_eot info e); cbn; destruct (0 <=? write_ret e); cbn|]];
    try destruct (fsync_ret e =? 0); cbn;
    intros H; inversion H; subst; cbn; auto.
Qed.

(** X15.  A pump never goes back: through any iteration that goes on, a
    cleared [keep_going] stays cleared, [found_eof] once 1 stays 1, and a
    descriptor once retired (-1) stays retired. *)
Theorem pump_never_resumes info flag e s s' f t :
  pump_step info flag e s = (Ok (Running s', f), t) ->
  (keep_going s = 0 -> keep_going s' = 0) /\
  (found_eof s = 1 -> found_eof s' = 1) /\
  (poll_fd0 s = -1 -> poll_fd0 s' = -1) /\
  (poll_fd1 s = -1 -> poll_fd1 s' = -1).
Proof.
  intros Hstep. unfold pump_step in Hstep.
  destruct (loop_head_fields flag s) as (_ & _ & _ & Hf1 & Hk1).
  assert (Hd1 : poll_fd0 (snd (loop_head flag s)) = poll_fd0 s /\
                poll_fd1 (snd (loop_head flag s)) = poll_fd1 s)
    by (now split).
  destruct Hd1 as [Hd0 Hd1].
  destruct (loop_head flag s) as [[|] s1]; cbn [snd] in *;
    [|inversion Hstep].
  destruct (loop_body_cases info e s1) as [[_ Heq]|[_ Heq]];
    rewrite Heq in Hstep; unfold bind, ret in Hstep; cbn in Hstep;
    [discriminate|].
  destruct (transfer info e (hangups e s1)) as [[s2| | |] t2] eqn:Ht;
    cbn in Hstep; inversion Hstep; subst s2; clear Hstep Heq.
  assert (Hh : (keep_going s1 = 0 -> keep_going (hangups e s1) = 0) /\
               (found_eof s1 = 1 -> found_eof (hangups e s1) = 1) /\
               (poll_fd0 s1 = -1 -> poll_fd0 (hangups e s1) = -1) /\
               (poll_fd1 s1 = -1 -> poll_fd1 (hangups e s1) = -1)).
  { unfold hangups.
    destruct (source_hangup_seen e), (dest_hangup_seen e); cbn; auto. }
  set (h := hangups e s1) in *.
  assert (Hw : forall s3,
            fst (if dest_writable e then on_writable info e s3 else ret s3)
              = Ok s' ->
            (keep_going s' = keep_going s3 \/ keep_going s' = 0) /\
            found_eof s' = found_eof s3 /\ poll_fd0 s' = poll_fd0 s3 /\
            poll_fd1 s' = poll_fd1 s3).
  { intros s3 H. destruct (dest_writable e).
    - destruct (on_writable info e s3) as [o3 t3] eqn:Hw. cbn in H. subst o3.
      split; [eapply on_writable_keep_going; eauto|].
      eapply on_writable_source; eauto.
    - cbn in H. inversion H. auto. }
  assert (Hc : (keep_going h = 0 -> keep_going s' = 0) /\
               (found_eof h = 1 -> found_eof s' = 1) /\
               (poll_fd0 h = -1 -> poll_fd0 s' = -1) /\
               (poll_fd1 h = -1 -> poll_fd1 s' = -1)).
  { destruct (transfer_cases info e h)
      as [[_ Ht']|[_ (s3 & r & Hfill & _ & Ht')]]; rewrite Ht' in Ht;
      apply (f_equal fst) in Ht; cbn [fst] in Ht; rename Ht into Ho;
      clear Ht'.
    - destruct (Hw _ Ho) as ([Hk|Hk] & -> & -> & ->); rewrite Hk; auto.
    - destruct (fill_result e h) as (s3' & Hf' & _ & _ & Hk3 & Hfd & Hz).
      rewrite Hfill in Hf'. inversion Hf'; subst s3'. clear Hf'.
      destruct (Hw _ Ho) as ([Hk|Hk] & -> & -> & ->); rewrite Hk, ?Hk3, Hfd;
        destruct (to_size_t (read_ret e) =? 0); destruct Hz as [-> ->];
        auto. }
  destruct Hh as (Ha & Hb & Hc0 & Hd). destruct Hc as (Ha' & Hb' & Hc' & Hd').
  rewrite Hf1, Hd0, Hd1 in *.
  repeat split; intros H; auto.
  apply Ha', Ha. rewrite Hk1, H. reflexivity.
Qed.

Lemma process_step_running fdm t e p s th f tr :
  thread_of p t = Running s ->
  pump_step (info_of fdm t) (all_done p) e s = (Ok (th, f), tr) ->
  process_step fdm t e p = (Ok (set_thread p t th f), tr).
Proof.
  intros Hth Hp. unfold process_step. rewrite Hth, Hp. cbn.
  now rewrite app_nil_r.
Qed.

Lemma process_run_cons fdm t e sched p p' tr :
  process_step fdm t e p = (Ok p', tr) ->
  process_run fdm ((t, e) :: sched) p =
  (fst (process_run fdm sched p'), (tr ++ snd (process_run fdm sched p'))%list).
Proof.
  intros H. cbn [process_run]. rewrite H. unfold bind.
  now destruct (process_run fdm sched p').
Qed.

(** X16.  How a session ends once the child is gone.  From the start of the
    two threads: when the writer sees the master hang up with nothing left
    to read, finds the standard output writable and its zero-length [write]
    and [fsync] succeed, it returns at its next step and sets the flag, and
    the reader then returns at its own next step; both joins succeed, and
    no byte was read or written.  This holds whatever the system answers in
    the last two steps. *)
Theorem session_ends_after_hangup fdm stack_r stack_w e1 e2 e3 :
  0 <= poll_ret e1 ->
  source_hangup_seen e1 = true -> dest_hangup_seen e1 = false ->
  dest_writable e1 = true ->
  0 <= write_ret e1 -> fsync_ret e1 = 0 ->
  exists p t,
    process_run fdm [(Writer, e1); (Writer, e2); (Reader, e3)]
      (process_start fdm stack_r stack_w) = (Ok p, t) /\
    pthread_join_both p = ret tt /\ all_done p = 1 /\
    reads_in t = [] /\
    writes_in t = [EvWrite STDOUT_FILENO [] 0 (write_ret e1)].
Proof.
  intros Hp Hs Hd Hw Hwr Hf.
  assert (Hfe : forall s, fill_enabled e1 (on_source_hangup s) = false).
  { intros s. unfold fill_enabled. cbn. now rewrite andb_false_r. }
  assert (Hb : exists s1,
            loop_body (writer_info fdm) e1
              (snd (loop_head 0 (thread_start (writer_info fdm) stack_w)))
            = (Ok s1, [EvPoll fdm STDOUT_FILENO (poll_ret e1);
                       EvWrite STDOUT_FILENO [] 0 (write_ret e1);
                       EvFsync STDOUT_FILENO (fsync_ret e1)]) /\
            keep_going s1 = 0 /\ buffer_length s1 = 0).
  { destruct (loop_body_cases (writer_info fdm) e1
                (snd (loop_head 0 (thread_start (writer_info fdm) stack_w))))
      as [[Hn _]|[_ Heq]]; [lia|]. rewrite Heq. clear Heq.
    unfold hangups. rewrite Hs, Hd.
    unfold transfer. rewrite Hfe, Hw.
    unfold on_writable, finish, wants_eot. cbn.
    unfold sys_write, sys_fsync, ASSERT_NONNEG, ASSERT_ZERO, ASSERT. cbn.
    destruct (Z.leb_spec 0 (write_ret e1)); [|lia]. cbn.
    rewrite Hf. cbn. eexists. split; [reflexivity|]. cbn. auto. }
  destruct Hb as (s1 & Hb & Hk1 & Hl1).
  set (p0 := process_start fdm stack_r stack_w).
  assert (A1 : pump_step (info_of fdm Writer) (all_done p0) e1
                 (thread_start (writer_info fdm) stack_w)
               = (Ok (Running s1, 0),
                  [EvPoll fdm STDOUT_FILENO (poll_ret e1);
                   EvWrite STDOUT_FILENO [] 0 (write_ret e1);
                   EvFsync STDOUT_FILENO (fsync_ret e1)])).
  { unfold pump_step.
    change (loop_head (all_done p0) (thread_start (writer_info fdm) stack_w))
      with (true, snd (loop_head 0 (thread_start (writer_info fdm) stack_w))).
    cbv iota beta. cbn [info_of]. rewrite Hb. cbn.
    reflexivity. }
  pose proof (process_step_running fdm Writer e1 p0 _ _ _ _ eq_refl A1) as S1.
  set (p1 := set_thread p0 Writer (Running s1) 0) in S1.
  assert (A2 : pump_step (info_of fdm Writer) (all_done p1) e2 s1
               = (Ok (Returned, 1), [])).
  { unfold pump_step, loop_head. cbn [all_done p1 set_thread].
    rewrite Hk1, Hl1. reflexivity. }
  pose proof (process_step_running fdm Writer e2 p1 _ _ _ _ eq_refl A2) as S2.
  set (p2 := set_thread p1 Writer Returned 1) in S2.
  assert (A3 : pump_step (info_of fdm Reader) (all_done p2) e3
                 (thread_start (reader_info fdm) stack_r)
               = (Ok (Returned, 1), [])).
  { apply (pump_step_flag_set (reader_info fdm) 1 e3); reflexivity. }
  pose proof (process_step_running fdm Reader e3 p2 _ _ _ _ eq_refl A3) as S3.
  rewrite (process_run_cons _ _ _ _ _ _ _ S1).
  rewrite (process_run_cons _ _ _ _ _ _ _ S2).
  rewrite (process_run_cons _ _ _ _ _ _ _ S3).
  cbn [process_run fst snd ret app].
  eexists _, _. split; [reflexivity|].
  repeat split; reflexivity.
Qed.


End Properties.

(* ================================================================== *)
(** ** The program on Linux: what the code does on given inputs *)

#[local] Existing Instance linux_glibc.

Lemma linux_capacity : 0 <= @BUFFER_SIZE linux_glibc <= SIZE_MAX.
Proof. unfold BUFFER_SIZE, SIZE_MAX. cbn. lia. Qed.

(** C3: the code at the failing input.  [read] fails on the source and
    returns -1.  The assertion around it does not fire, because the value it
    tests has been converted to the unsigned [n_read]: nothing is printed,
    the process does not exit, and the buffer is taken to hold [SIZE_MAX]
    bytes.  At the next iteration [write] is called with that length on the
    uninitialised buffer, and the four bytes it accepts reach the
    destination although nothing was ever read.  A failing [write] in the
    drain is not seen either: the pump goes on with a wrapped offset. *)
Theorem read_error_taken_as_data :
  @redirection_thread_fn linux_glibc (writer_info 3) junk_stack
     [(0, e_read_error); (0, e_write4)]
  = (Ok (Running {| keep_going := 1; found_eof := 0;
                    poll_fd0 := 3; poll_fd1 := 1;
                    buffer := junk_stack;
                    buffer_length := 18446744073709551611;
                    buffer_offset := 4 |}),
     [EvPoll 3 1 1; EvRead 3 8192 (-1) [];
      EvPoll 3 1 1; EvWrite 1 junk_stack 18446744073709551615 4;
      EvFsync 1 0])
  /\
  bytes_read (snd (@redirection_thread_fn linux_glibc (writer_info 3)
                     junk_stack [(0, e_read_error); (0, e_write4)])) = []
  /\
  bytes_written (snd (@redirection_thread_fn linux_glibc (writer_info 3)
                        junk_stack [(0, e_read_error); (0, e_write4)]))
  = junk_stack
  /\
  @redirection_thread_fn linux_glibc (writer_info 3) []
     [(0, e_read_hi); (0, e_write_error)]
  = (Ok (Running {| keep_going := 1; found_eof := 0;
                    poll_fd0 := 3; poll_fd1 := 1;
                    buffer := ["h"; "i"]%byte;
                    buffer_length := 3;
                    buffer_offset := 18446744073709551615 |}),
     [EvPoll 3 1 1; EvRead 3 8192 2 ["h"; "i"]%byte;
      EvPoll 3 1 1; EvWrite 1 ["h"; "i"]%byte 2 (-1); EvFsync 1 0]).
Proof. repeat split; vm_compute; reflexivity. Qed.

(** C5: the code at the failing input.  A reader pump whose source and
    destination hang up in the same [poll], the destination being reported
    writable as well: the destination is retired, and then the end-of-file
    block calls [write] on the descriptor -1; the call fails and the whole
    process exits with a diagnostic. *)
Theorem dest_hangup_then_write :
  @redirection_thread_fn linux_glibc (reader_info 3) []
     [(0, e_hup_both_writable)]
  = (Exited 1,
     [EvPoll 0 3 2; EvWrite (-1) [eot_char] 1 (-1);
      EvStderr "terminator: "; EvPerror; EvExit 1]).
Proof. vm_compute. reflexivity. Qed.

(* ================================================================== *)
(** ** Counterexamples to the claims that do not hold as stated *)

(** C1 as stated fails: a pump that read two bytes and then saw its
    destination hang up returns having written nothing. *)
Lemma relay_exact_counterexample :
  ~ (forall info stack script tr,
       @redirection_thread_fn linux_glibc info stack script = (Ok Returned, tr) ->
       io_ok tr = true ->
       bytes_written tr = bytes_read tr).
Proof.
  intros H.
  specialize (H (@reader_info linux_glibc 3) [] discard_script _
                eq_refl eq_refl).
  vm_compute in H. discriminate H.
Qed.

(** C2 as stated fails: the child exits with status 7 and every call of
    [main] succeeds, but [poll] fails in a pump, which ends the process with
    [EXIT_FAILURE]. *)
Lemma exit_status_counterexample :
  ~ (forall argc e,
       setup_ok argc e = true -> fork_ret e <> 0 ->
       parent_ok e = true ->
       c_true (@WIFEXITED linux_glibc (wait_status e)) = true ->
       exit_status (@main linux_glibc argc e)
         = Some (@WEXITSTATUS linux_glibc (wait_status e))).
Proof.
  intros H.
  assert (Hf : fork_ret env_pump_fails <> 0) by discriminate.
  specialize (H 2 env_pump_fails eq_refl Hf eq_refl eq_refl).
  vm_compute in H. discriminate H.
Qed.

(** C4 as stated fails: after four bytes are read and one is written, three
    bytes remain to be written (and [buffer_length] is 3), while length
    minus offset is 2. *)
Lemma buffer_remaining_counterexample :
  ~ (forall info stack script s tr,
       @redirection_thread_fn linux_glibc info stack script
         = (Ok (Running s), tr) ->
       io_ok tr = true ->
       Z.of_nat (List.length (bytes_read tr))
         - Z.of_nat (List.length (bytes_written tr)) = spec_remaining s).
Proof.
  intros H.
  specialize (H (@reader_info linux_glibc 3) [] [(0, e_read4_write1)] _ _
                eq_refl eq_refl).
  vm_compute in H. discriminate H.
Qed.

(* ================================================================== *)
(** ** The theorems at work on the scenarios *)

Lemma relay_in_order_witness :
  0 <= @BUFFER_SIZE linux_glibc <= SIZE_MAX /\
  io_ok (snd hi_run) = true /\
  (exists relayed dropped trailer,
     bytes_read (snd hi_run)
       = (relayed ++ pend_thread (fst hi_run) ++ dropped)%list /\
     bytes_written (snd hi_run) = (relayed ++ trailer)%list /\
     (trailer = [] \/
      trailer = [eot_char] /\
      c_true (send_eot (@reader_info linux_glibc 3)) = true) /\
     (forall th, fst hi_run = Ok th ->
        no_dest_hangup relay_script = true -> dropped = []) /\
     (fst hi_run = Ok Returned -> no_dest_hangup relay_script = true ->
      bytes_written (snd hi_run) = (bytes_read (snd hi_run) ++ trailer)%list)).
Proof.
  split; [exact linux_capacity|]. split; [reflexivity|].
  apply (@relay_in_order linux_glibc (reader_info 3) [] relay_script
           (fst hi_run) (snd hi_run) linux_capacity);
    reflexivity.
Defined.

Lemma exit_status_contract_witness :
  exit_status (@main linux_glibc 2 env_exit7) = Some 7 /\
  exit_status (@main linux_glibc 2 env_killed) = Some 1 /\
  exit_status (@main linux_glibc 2 env_no_pty) = Some 1 /\
  exit_status (@main linux_glibc 2 env_pump_fails) = Some 1 /\
  exit_status (@main linux_glibc 2 env_close_fails) = Some 1.
Proof.
  split; [|split; [|split; [|split]]].
  - apply (proj1 (@exit_status_contract linux_glibc 2 env_exit7));
      try reflexivity.
    + discriminate.
    + eexists; eexists. split; [reflexivity|]. split; reflexivity.
  - apply (proj1 (proj2 (@exit_status_contract linux_glibc 2 env_killed)));
      try reflexivity.
    + discriminate.
    + eexists; eexists. split; [reflexivity|]. split; reflexivity.
  - apply (proj1 (proj2 (proj2
             (@exit_status_contract linux_glibc 2 env_no_pty)))).
    reflexivity.
  - apply (proj1 (proj2 (proj2 (proj2 (proj2 (proj2
             (@exit_status_contract linux_glibc 2 env_pump_fails)))))));
      try reflexivity.
    + discriminate.
    + exists 1. reflexivity.
  - apply (proj2 (proj2 (proj2 (proj2 (proj2 (proj2
             (@exit_status_contract linux_glibc 2 env_close_fails)))))));
      try reflexivity.
    + discriminate.
    + eexists; eexists. split; [reflexivity|]. split; reflexivity.
Defined.

Lemma no_command_is_fatal_witness :
  1 <= 1 /\
  @main linux_glibc 1 env_exit7 =
  (Exited 1,
   [EvStderr "terminator: ";
    EvStderr ("Insufficient command line arguments" ++ newline)%string;
    EvExit 1]).
Proof.
  split; [lia|].
  apply (@no_command_is_fatal linux_glibc 1 env_exit7). lia.
Defined.

Lemma source_eof_is_modeled_witness :
  (forall s' t,
     @loop_body linux_glibc (reader_info 3) e_eof_tty fresh_reader = (Ok s', t) ->
     found_eof s' = 1 /\ poll_fd0 s' = -1) /\
  (forall s' t,
     @loop_body linux_glibc (reader_info 3) e_read_zero fresh_reader = (Ok s', t) ->
     found_eof s' = 1 /\ poll_fd0 s' = -1).
Proof.
  split.
  - apply (@source_eof_is_modeled linux_glibc (reader_info 3) e_eof_tty
             fresh_reader).
    + cbn. lia.
    + left. reflexivity.
  - apply (@source_eof_is_modeled linux_glibc (reader_info 3) e_read_zero
             fresh_reader).
    + cbn. lia.
    + right. repeat split; reflexivity.
Defined.

Lemma read_only_when_empty_witness :
  (List.length (reads_in (snd (@pump_step linux_glibc (reader_info 3) 0
                                 e_read_hi fresh_reader))) <= 1)%nat /\
  (reads_in (snd (@pump_step linux_glibc (reader_info 3) 0
                    e_read_hi fresh_reader)) <> [] ->
   c_true (keep_going fresh_reader) = true /\ found_eof fresh_reader = 0 /\
   c_true (Z.land (revents0 e_read_hi) (@POLLIN linux_glibc)) = true /\
   buffer_length fresh_reader = 0 /\ pending fresh_reader = []).
Proof.
  apply (@read_only_when_empty linux_glibc (reader_info 3) 0 e_read_hi
           fresh_reader
           (fst (@pump_step linux_glibc (reader_info 3) 0 e_read_hi
                   fresh_reader))).
  reflexivity.
Defined.


Lemma all_done_discipline_witness :
  c_true 1 = true /\
  @pump_step linux_glibc (reader_info 3) 1 quiet fresh_reader
  = (Ok (Returned, 1), []) /\
  @process_step linux_glibc 3 Writer quiet writer_about_to_return
  = (Ok writer_done, []) /\
  @process_step linux_glibc 3 Reader e_read_hi writer_done
  = (Ok both_done, []).
Proof.
  split; [reflexivity|]. split; [|split].
  - apply (proj1 (proj2 (proj2 (proj2 (proj2 (proj2
             (@all_done_discipline linux_glibc 3))))))
             (reader_info 3) 1 quiet fresh_reader); reflexivity.
  - apply (proj1 (proj2 (proj2 (proj2 (proj2 (proj2 (proj2 (proj2
             (@all_done_discipline linux_glibc 3))))))))
             quiet writer_about_to_return writer_stopped); reflexivity.
  - apply (proj2 (proj2 (proj2 (proj2 (proj2 (proj2 (proj2 (proj2
             (@all_done_discipline linux_glibc 3))))))))
             e_read_hi writer_done fresh_reader); reflexivity.
Defined.

Lemma buffer_invariant_witness :
  0 <= @BUFFER_SIZE linux_glibc <= SIZE_MAX /\
  @buffer_inv linux_glibc partial_state /\
  (live partial_state = true ->
   bytes_read partial_trace
     = (bytes_written partial_trace ++ pending partial_state)%list /\
   Z.of_nat (List.length (bytes_read partial_trace))
     - Z.of_nat (List.length (bytes_written partial_trace))
   = buffer_length partial_state).
Proof.
  split; [exact linux_capacity|].
  apply (proj2 (proj2 (@buffer_invariant linux_glibc (reader_info 3)
                         linux_capacity))
           [] [(0, e_read4_write1)] partial_state partial_trace);
    reflexivity.
Defined.

(* ================================================================== *)
(** ** cfmakeraw: properties *)

Section TermiosProperties.

Context {T : TermiosFlags}.

Ltac bits H :=
  apply Z.bits_inj'; intros n Hn;
  apply (f_equal (fun z => Z.testbit z n)) in H; revert H; cbv beta;
  repeat first [ rewrite Z.land_spec | rewrite Z.lor_spec
               | rewrite Z.lnot_spec by lia | rewrite Z.bits_0 ];
  repeat match goal with
         | |- context [Z.testbit ?x n] => destruct (Z.testbit x n)
         end;
  cbn; congruence.

(** Clearing a mask clears every flag inside the mask. *)
Lemma clear_inside x m f :
  Z.land f m = f -> Z.land (Z.land x (Z.lnot m)) f = 0.
Proof. intros H. bits H. Qed.

(** Clearing a mask leaves every flag outside the mask as it was. *)
Lemma clear_outside x m f :
  Z.land f m = 0 -> Z.land (Z.land x (Z.lnot m)) f = Z.land x f.
Proof. intros H. bits H. Qed.

Lemma lor_inside_l a b f : Z.land f a = f -> Z.land f (Z.lor a b) = f.
Proof. intros H. bits H. Qed.

Lemma lor_inside_r a f : Z.land f (Z.lor a f) = f.
Proof. assert (H : 0 = 0) by reflexivity. bits H. Qed.

Lemma land_diag_inside f : Z.land f f = f.
Proof. apply Z.land_diag. Qed.

(** X11.  [cfmakeraw] turns off every flag it names: the nine input flags,
    [OPOST], and [ECHO], [ECHONL], [ISIG] and [IEXTEN], whatever the
    values of the constants and whatever the settings were. *)
Theorem cfmakeraw_clears_named_flags t :
  let r := cfmakeraw t in
  (Z.land (c_iflag r) IMAXBEL = 0 /\ Z.land (c_iflag r) IGNBRK = 0 /\
   Z.land (c_iflag r) BRKINT = 0 /\ Z.land (c_iflag r) PARMRK = 0 /\
   Z.land (c_iflag r) ISTRIP = 0 /\ Z.land (c_iflag r) INLCR = 0 /\
   Z.land (c_iflag r) IGNCR = 0 /\ Z.land (c_iflag r) ICRNL = 0 /\
   Z.land (c_iflag r) IXON = 0) /\
  Z.land (c_oflag r) OPOST = 0 /\
  (Z.land (c_lflag r) ECHO = 0 /\ Z.land (c_lflag r) ECHONL = 0 /\
   Z.land (c_lflag r) ISIG = 0 /\ Z.land (c_lflag r) IEXTEN = 0).
Proof.
  cbn. unfold iflag_mask, lflag_mask.
  repeat split; apply clear_inside;
    repeat first [ apply lor_inside_r | apply land_diag_inside
                 | apply lor_inside_l ].
Qed.

(** X12.  [cfmakeraw] leaves alone every flag outside the masks it clears.
    In particular it does not leave canonical mode: [ICANON] is named in a
    comment only, and keeps the value it had (as soon as it shares no bit
    with the four local flags that are cleared). *)
Theorem cfmakeraw_keeps_other_flags t f :
  (Z.land f iflag_mask = 0 ->
   Z.land (c_iflag (cfmakeraw t)) f = Z.land (c_iflag t) f) /\
  (Z.land f OPOST = 0 ->
   Z.land (c_oflag (cfmakeraw t)) f = Z.land (c_oflag t) f) /\
  (Z.land f lflag_mask = 0 ->
   Z.land (c_lflag (cfmakeraw t)) f = Z.land (c_lflag t) f) /\
  (Z.land ICANON lflag_mask = 0 ->
   Z.land (c_lflag (cfmakeraw t)) ICANON = Z.land (c_lflag t) ICANON) /\
  (Z.land f cflag_mask = 0 -> Z.land f CS8 = 0 ->
   Z.land (c_cflag (cfmakeraw t)) f = Z.land (c_cflag t) f).
Proof.
  cbn. repeat split; intros H; try (now apply clear_outside).
  intros H'.
  apply Z.bits_inj'; intros n Hn.
  apply (f_equal (fun z => Z.testbit z n)) in H, H'. revert H H'.
  cbv beta.
  repeat first [ rewrite Z.land_spec | rewrite Z.lor_spec
               | rewrite Z.lnot_spec by lia | rewrite Z.bits_0 ].
  repeat match goal with
         | |- context [Z.testbit ?x n] => destruct (Z.testbit x n)
         end; cbn; congruence.
Qed.

(** X13.  After [cfmakeraw] the character size is 8 bits and parity is
    off, provided [CS8] lies inside the [CSIZE] field and shares no bit
    with [PARENB]; and [cfmakeraw] applied twice is [cfmakeraw] applied
    once, whatever the constants. *)
Theorem cfmakeraw_char_size_and_idempotence t :
  (Z.land CS8 CSIZE = CS8 -> Z.land (c_cflag (cfmakeraw t)) CSIZE = CS8) /\
  (Z.land CS8 PARENB = 0 -> Z.land (c_cflag (cfmakeraw t)) PARENB = 0) /\
  cfmakeraw (cfmakeraw t) = cfmakeraw t.
Proof.
  split; [|split].
  - intros H. cbn. unfold cflag_mask. bits H.
  - intros H. cbn. unfold cflag_mask. bits H.
  - unfold cfmakeraw. cbn. f_equal.
    + rewrite <- Z.land_assoc, Z.land_diag. reflexivity.
    + rewrite <- Z.land_assoc, Z.land_diag. reflexivity.
    + assert (H : 0 = 0) by reflexivity. bits H.
    + rewrite <- Z.land_assoc, Z.land_diag. reflexivity.
Qed.

End TermiosProperties.

(* ================================================================== *)
(** ** The further theorems at work on the scenarios *)

Lemma loop_body_fatal_calls_witness :
  (exists s', fst (loop_body (reader_info 3) e_read_error fresh_reader)
              = Ok s') /\
  loop_body (reader_info 3) e_poll_error fresh_reader
  = (Exited 1, [EvPoll 0 3 (-1); EvStderr "terminator: "; EvPerror; EvExit 1])
  /\
  (exists s', fst (loop_body (reader_info 3) e_write_error holding_hi)
              = Ok s') /\
  (write_ret e_eot_error < 0 /\
   exists s2, buffer_length s2 <= 0 /\
     writes_in (snd (loop_body (reader_info 3) e_eot_error fresh_reader))
     = [final_write (reader_info 3) e_eot_error s2]).
Proof.
  split; [|split; [|split]].
  - apply (proj1 (loop_body_fatal_calls (reader_info 3) e_read_error
                    fresh_reader)); cbn; lia.
  - refine (proj1 (proj2 (loop_body_fatal_calls (reader_info 3) e_poll_error
                            fresh_reader)) _). cbn. lia.
  - apply (proj2 (proj2 (proj2 (proj2
             (loop_body_fatal_calls (reader_info 3) e_write_error
                holding_hi))))).
    + cbn. lia.
    + reflexivity.
    + reflexivity.
    + left. cbn. lia.
  - apply (proj1 (proj2 (proj2 (proj2
             (loop_body_fatal_calls (reader_info 3) e_eot_error
                fresh_reader)))) 1).
    + cbn. lia.
    + reflexivity.
    + reflexivity.
Defined.

Lemma readable_source_is_not_eof_witness :
  c_true (Z.land (revents0 e_hup_with_data) POLLIN) = true /\
  ((found_eof holding_hi = found_eof fresh_reader /\
    poll_fd0 holding_hi = poll_fd0 fresh_reader) \/
   (fill_enabled e_hup_with_data fresh_reader = true /\
    to_size_t (read_ret e_hup_with_data) = 0 /\
    found_eof holding_hi = 1 /\ poll_fd0 holding_hi = -1)).
Proof.
  split; [reflexivity|].
  apply (readable_source_is_not_eof (reader_info 3) e_hup_with_data
           fresh_reader holding_hi
           (snd (loop_body (reader_info 3) e_hup_with_data fresh_reader)));
    reflexivity.
Defined.

Lemma drain_resumes_witness :
  pending holding_abcd
  = (bytes_written (snd (drain e_read4_write1 holding_abcd)
                    ++ snd (drain e_write2
                              (state_of (drain e_read4_write1 holding_abcd)
                                 holding_abcd)))
     ++ ["d"]%byte)%list.
Proof.
  apply (drain_resumes e_read4_write1 e_write2 holding_abcd
           (state_of (drain e_read4_write1 holding_abcd) holding_abcd)
           (state_of (drain e_write2
                        (state_of (drain e_read4_write1 holding_abcd)
                           holding_abcd)) holding_abcd)
           _ _ (proj2 linux_capacity)).
  - unfold buffer_inv. cbn. lia.
  - reflexivity.
  - reflexivity.
  - reflexivity.
  - reflexivity.
Defined.

Lemma writer_appends_nothing_witness :
  exists rest,
    bytes_read (snd (redirection_thread_fn (writer_info 3) []
                       [(0, e_read_hi); (0, e_write2)]))
    = (bytes_written (snd (redirection_thread_fn (writer_info 3) []
                             [(0, e_read_hi); (0, e_write2)])) ++ rest)%list.
Proof.
  apply (writer_appends_nothing 3 [] [(0, e_read_hi); (0, e_write2)]
           (fst (redirection_thread_fn (writer_info 3) []
                   [(0, e_read_hi); (0, e_write2)]))
           _ linux_capacity); reflexivity.
Defined.

Lemma pump_descriptors_witness : fd_inv (reader_info 3) partial_state.
Proof.
  apply (pump_descriptors (reader_info 3) [] [(0, e_read4_write1)]
           partial_state partial_trace). reflexivity.
Defined.

Lemma pump_uses_own_descriptors_witness :
  event_fds_ok (reader_info 3)
    (EvRead 0 8192 4 ["a"; "b"; "c"; "d"]%byte) = true.
Proof.
  apply (pump_uses_own_descriptors (reader_info 3) [] [(0, e_read4_write1)]
           (Ok (Running partial_state)) partial_trace).
  - reflexivity.
  - cbn. auto.
Defined.

Lemma flag_tells_writer_returned_witness :
  (all_done both_done = 0 /\ writer_thread both_done <> Returned) \/
  (all_done both_done = 1 /\ writer_thread both_done = Returned).
Proof.
  apply (flag_tells_writer_returned 3 [] [] (schedule env_exit7) both_done
           (snd (process_run 3 (schedule env_exit7) (process_start 3 [] [])))).
  reflexivity.
Defined.

Lemma idle_reader_ends_session_witness :
  exists p',
    process_step 3 Reader e_read_hi writer_done = (Ok p', []) /\
    reader_thread p' = Returned /\ writer_thread p' = Returned /\
    pthread_join_both p' = ret tt.
Proof.
  apply (idle_reader_ends_session 3 [] []
           [(Writer, e_eof_file); (Writer, quiet)] writer_done
           (snd (process_run 3 [(Writer, e_eof_file); (Writer, quiet)]
                   (process_start 3 [] [])))
           fresh_reader e_read_hi); reflexivity.
Defined.


Lemma child_starts_command_witness :
  fst (main 2 env_child) = Replaced <->
  child_ok env_child = true /\ execvp_ret env_child = None.
Proof.
  apply (proj1 (child_starts_command 2 env_child eq_refl eq_refl)).
Defined.

Lemma exit_is_never_silent_witness :
  1 = EXIT_FAILURE /\ ends_with_diagnostic (snd (main 2 env_no_pty)).
Proof.
  apply (proj1 exit_is_never_silent 2 env_no_pty 1). reflexivity.
Defined.

Lemma cfmakeraw_keeps_other_flags_witness :
  Z.land (c_lflag (@cfmakeraw sysv_termios cooked)) (@ICANON sysv_termios)
  = Z.land (c_lflag cooked) (@ICANON sysv_termios).
Proof.
  apply (proj1 (proj2 (proj2 (proj2
           (@cfmakeraw_keeps_other_flags sysv_termios cooked 0))))).
  reflexivity.
Defined.

Lemma cfmakeraw_char_size_and_idempotence_witness :
  Z.land (c_cflag (@cfmakeraw sysv_termios cooked)) (@CSIZE sysv_termios)
  = @CS8 sysv_termios /\
  Z.land (c_cflag (@cfmakeraw sysv_termios cooked)) (@PARENB sysv_termios) = 0.
Proof.
  split.
  - apply (proj1 (@cfmakeraw_char_size_and_idempotence sysv_termios cooked)).
    reflexivity.
  - apply (proj1 (proj2
             (@cfmakeraw_char_size_and_idempotence sysv_termios cooked))).
    reflexivity.
Defined.

Lemma pump_never_resumes_witness :
  (keep_going draining_after_eof = 0 /\ found_eof draining_after_eof = 1 /\
   poll_fd0 draining_after_eof = -1 /\ poll_fd1 retired_holding = -1) /\
  (keep_going draining_one_left = 0 /\ found_eof draining_one_left = 1 /\
   poll_fd0 draining_one_left = -1) /\
  poll_fd1 (state_of (loop_body (reader_info 3) quiet retired_holding)
              fresh_reader) = -1.
Proof.
  split; [repeat split|].
  assert (E1 : pump_step (reader_info 3) 1 e_read4_write1 draining_after_eof
               = (Ok (Running draining_one_left, 1),
                  snd (pump_step (reader_info 3) 1 e_read4_write1
                         draining_after_eof))) by reflexivity.
  assert (E2 : pump_step (reader_info 3) 0 quiet retired_holding
               = (Ok (Running
                        (state_of (loop_body (reader_info 3) quiet
                                     retired_holding) fresh_reader), 0),
                  snd (pump_step (reader_info 3) 0 quiet retired_holding)))
    by reflexivity.
  destruct (pump_never_resumes _ _ _ _ _ _ _ E1) as (H1 & H2 & H3 & _).
  split.
  - split; [apply H1; reflexivity|]. split; [apply H2|apply H3]; reflexivity.
  - apply (pump_never_resumes _ _ _ _ _ _ _ E2). reflexivity.
Defined.

Lemma session_ends_after_hangup_witness :
  exists p t,
    process_run 3 [(Writer, e_eof_file); (Writer, quiet); (Reader, quiet)]
      (process_start 3 [] []) = (Ok p, t) /\
    pthread_join_both p = ret tt /\ all_done p = 1 /\
    reads_in t = [] /\
    writes_in t = [EvWrite STDOUT_FILENO [] 0 (write_ret e_eof_file)].
Proof.
  apply (session_ends_after_hangup 3 [] [] e_eof_file quiet quiet);
    try reflexivity; cbn; lia.
Defined.
